(** * Telemetry dashboard: window selection, pace comparison, lap-time table

    A shallow embedding of the view-layer logic of the dashboard:
    - [TelemetryRenderer]: [getPlayerPosition], [getAdjacentPositions],
      [getRelevantRaceTableRows] (static/js/telemetryRenderer.js);
    - [PaceComparison]: [formatDelta], [updateElementDelta],
      [isDataAvailable], [update] (static/js/paceComparisonOverlay.js);
    - [LapTimeTableWidget]: [getValidTimeStr], [applyColourToCell],
      [update] (the lap-time table widget).

    JavaScript numbers that the code handles are integers coming from JSON
    (positions, counts, milliseconds); they are modelled as [Z], together
    with the three non-integer values the code can meet: [null],
    [undefined] and [NaN]. *)

From stdpp Require Import base numbers list strings pretty.

Local Open Scope Z_scope.

(** ** The fragment of JavaScript the sources rely on *)
Module JS.

(** A value read from a JSON field or produced by arithmetic. A key that
    is absent from an object reads as [Undefined]. *)
Inductive value : Type :=
| Null
| Undefined
| NaN
| Num (z : Z).

#[global] Instance value_eq_dec : EqDecision value.
Proof. solve_decision. Defined.

(** [ToNumber]: [None] stands for NaN. *)
Definition to_number (v : value) : option Z :=
  match v with
  | Null => Some 0
  | Undefined => None
  | NaN => None
  | Num z => Some z
  end.

(** Relational operators: false as soon as one side is NaN. *)
Definition compare_with (op : Z -> Z -> bool) (a b : value) : bool :=
  match to_number a, to_number b with
  | Some x, Some y => op x y
  | _, _ => false
  end.

Definition ge : value -> value -> bool := compare_with Z.geb.
Definition le : value -> value -> bool := compare_with Z.leb.
Definition gt : value -> value -> bool := compare_with Z.gtb.
Definition lt : value -> value -> bool := compare_with Z.ltb.

(** [a - b] *)
Definition sub (a b : value) : value :=
  match to_number a, to_number b with
  | Some x, Some y => Num (x - y)
  | _, _ => NaN
  end.

(** [ToBoolean] *)
Definition truthy (v : value) : bool :=
  match v with
  | Num z => negb (z =? 0)
  | _ => false
  end.

(** [a === b] *)
Definition strict_eq (a b : value) : bool :=
  match a, b with
  | Null, Null => true
  | Undefined, Undefined => true
  | Num x, Num y => x =? y
  | _, _ => false
  end.

(** [a !== b] *)
Definition strict_neq (a b : value) : bool := negb (strict_eq a b).

(** [arr[i]] on an array of numbers: out of range reads [undefined]. *)
Definition array_get (arr : list Z) (i : Z) : value :=
  if i <? 0 then Undefined
  else match arr !! Z.to_nat i with
       | Some z => Num z
       | None => Undefined
       end.

(** [Array.from({ length: n }, (_, i) => f(i))]; a negative length is
    clamped to 0 by [ToLength]. *)
Definition array_from_length {A} (n : Z) (f : Z -> A) : list A :=
  map (fun i : nat => f (Z.of_nat i)) (seq 0 (Z.to_nat n)).

(** [ToIntegerOrInfinity] on the values at hand: NaN becomes 0. *)
Definition to_integer (v : value) : Z :=
  match to_number v with
  | Some z => z
  | None => 0
  end.

(** A relative index of [slice]: negative counts from the end. *)
Definition relative_index (len rel : Z) : Z :=
  if rel <? 0 then Z.max (len + rel) 0 else Z.min rel len.

(** [arr.slice(start, end)] *)
Definition slice {A} (arr : list A) (start end_ : value) : list A :=
  let len := Z.of_nat (length arr) in
  let k := relative_index len (to_integer start) in
  let relativeEnd :=
    match end_ with
    | Undefined => len
    | _ => to_integer end_
    end in
  let final := relative_index len relativeEnd in
  take (Z.to_nat (Z.max (final - k) 0)) (drop (Z.to_nat k) arr).

End JS.

(** ** DOM elements, as far as the widgets write to them *)
Module Dom.

(** [classList] is an ordered set of tokens. *)
Record element : Type := Element {
  textContent : string;
  classList : list string
}.

#[global] Instance element_eq_dec : EqDecision element.
Proof. solve_decision. Defined.

(** A freshly created cell or span. *)
Definition fresh : element := Element "" [].

(** [el.textContent = s] *)
Definition set_text (s : string) (el : element) : element :=
  Element s (classList el).

(** [el.classList.add(tok)] *)
Definition classList_add (tok : string) (el : element) : element :=
  if bool_decide (tok ∈ classList el) then el
  else Element (textContent el) (classList el ++ [tok]).

(** [el.classList.remove(tok1, tok2, ...)] *)
Definition classList_remove (toks : list string) (el : element) : element :=
  Element (textContent el)
          (filter (fun c => c ∉ toks) (classList el)).

End Dom.

(** ** telemetryRenderer.js *)
Module TelemetryRenderer.
Import JS.

Record driver_info : Type := DriverInfo {
  is_player : bool;
  position : value;
  index : Z
}.

(** One element of ["table-entries"]; [row_payload] stands for all the
    other fields, which the functions below never read. *)
Record table_entry : Type := TableEntry {
  entry_driver_info : driver_info;
  row_payload : string
}.

Record snapshot : Type := Snapshot {
  table_entries : list table_entry;
  is_spectating : bool;
  race_ended : bool
}.

#[global] Instance driver_info_eq_dec : EqDecision driver_info.
Proof. solve_decision. Defined.
#[global] Instance table_entry_eq_dec : EqDecision table_entry.
Proof. solve_decision. Defined.

(** The [for] loop of [getPlayerPosition]: the position of the first
    entry flagged as the player, [null] when there is none. *)
Fixpoint getPlayerPosition_loop (tableEntries : list table_entry) : value :=
  match tableEntries with
  | [] => Null
  | entry :: rest =>
      let driverInfo := entry_driver_info entry in
      if is_player driverInfo then position driverInfo
      else getPlayerPosition_loop rest
  end.

Definition getPlayerPosition (data : snapshot) : value :=
  getPlayerPosition_loop (table_entries data).

(** The two local variables [lower_bound] and [upper_bound]. *)
Record bounds : Type := Bounds {
  lower_bound : Z;
  upper_bound : Z
}.

Definition min_valid_lower_bound : Z := 1.

(** The [if]/[else] that initialises the bounds. *)
Definition initial_bounds (position total_cars num_adjacent_cars : Z) : bounds :=
  if num_adjacent_cars >=? total_cars
  then Bounds min_valid_lower_bound total_cars
  else Bounds (position - num_adjacent_cars) (position + num_adjacent_cars).

(** [if (lower_bound < min_valid_lower_bound) { ... }]: the corrected
    bounds, and whether the branch was taken. *)
Definition correct_lower (b : bounds) : bounds * bool :=
  if lower_bound b <? min_valid_lower_bound
  then (Bounds min_valid_lower_bound
               (upper_bound b + (min_valid_lower_bound - lower_bound b)), true)
  else (b, false).

(** [if (upper_bound > total_cars) { ... }] *)
Definition correct_upper (total_cars : Z) (b : bounds) : bounds * bool :=
  if upper_bound b >? total_cars
  then (Bounds (lower_bound b - (upper_bound b - total_cars)) total_cars, true)
  else (b, false).

(** The bounds at the [return] statement, for a position that passed
    the guard. *)
Definition final_bounds (position total_cars num_adjacent_cars : Z) : bounds :=
  let b0 := initial_bounds position total_cars num_adjacent_cars in
  let b1 := (correct_lower b0).1 in
  (correct_upper total_cars b1).1.

(** Which of the two corrections ran: (lower, upper). *)
Definition corrections_applied (position total_cars num_adjacent_cars : Z)
  : bool * bool :=
  let b0 := initial_bounds position total_cars num_adjacent_cars in
  let r1 := correct_lower b0 in
  (r1.2, (correct_upper total_cars r1.1).2).

Definition getAdjacentPositions
    (position : value) (total_cars num_adjacent_cars : Z) : list Z :=
  if negb (ge position (Num 1) && le position (Num total_cars)) then []
  else
    let b := final_bounds (to_integer position) total_cars num_adjacent_cars in
    array_from_length (upper_bound b - lower_bound b + 1)
                      (fun i => lower_bound b + i).

Section Preferences.
(** The global user preference read by [getRelevantRaceTableRows]. *)
Variable g_pref_numAdjacentCars : Z.

Definition getRelevantRaceTableRows (data : snapshot) : list table_entry :=
  if Z.of_nat (length (table_entries data)) =? 0 then []
  else if is_spectating data || race_ended data then table_entries data
  else
    let totalCars := Z.of_nat (length (table_entries data)) in
    let playerPosition := getPlayerPosition data in
    let relevantPositions :=
      getAdjacentPositions playerPosition totalCars g_pref_numAdjacentCars in
    let lowerIndex := sub (array_get relevantPositions 0) (Num 1) in
    let upperIndex :=
      array_get relevantPositions
                (Z.of_nat (length relevantPositions) - 1) in
    slice (table_entries data) lowerIndex upperIndex.
End Preferences.

End TelemetryRenderer.

(** ** paceComparisonOverlay.js *)
Module PaceComparison.
Import JS Dom.

(** One of [data['player']], [data['prev']], [data['next']]. The
    availability test reads the key ['last-ms'] while the lap delta reads
    the key ['lap-ms']: both keys are kept, as the source has them. *)
Record pace_data : Type := PaceData {
  name : option string;          (* null or a string *)
  last_ms : value;
  lap_ms : value;
  sector_1_ms : value;
  sector_2_ms : value;
  sector_3_ms : value
}.

Record data : Type := Data {
  player : pace_data;
  prev : pace_data;
  next : pace_data
}.

(** The elements the constructor looks up, and the error console. *)
Record widget : Type := Widget {
  prevDriver : element;
  nextDriver : element;
  prevDelta : element;
  nextDelta : element;
  prevSectors : list element;
  nextSectors : list element;
  console_errors : list string
}.

Definition placeholder : string := "---".

(** [data[`sector-${n}-ms`]] *)
Definition sector_ms (n : Z) (d : pace_data) : value :=
  if n =? 1 then sector_1_ms d
  else if n =? 2 then sector_2_ms d
  else if n =? 3 then sector_3_ms d
  else Undefined.

(** [x.toFixed(3)] for [x = ms / 1000] with [ms] a non-negative integer
    number of milliseconds. *)
Definition pad3 (n : Z) : string :=
  let s := pretty n in
  if n <? 10 then "00" +:+ s
  else if n <? 100 then "0" +:+ s
  else s.

Definition toFixed3_of_ms (ms : Z) : string :=
  pretty (ms / 1000) +:+ "." +:+ pad3 (ms mod 1000).

Definition formatDelta (deltaMs : value) : string :=
  if negb (truthy deltaMs) && strict_neq deltaMs (Num 0) then "--.-"
  else
    (if gt deltaMs (Num 0) then "+" else "-")
      +:+ toFixed3_of_ms (Z.abs (to_integer deltaMs)).

Definition updateElementDelta (el : element) (delta : value) : element :=
  let el := classList_remove ["text-success"; "text-danger"] el in
  if gt delta (Num 0) then classList_add "text-danger" el
  else if lt delta (Num 0) then classList_add "text-success" el
  else el.

Definition isDataAvailable (d : pace_data) : bool :=
  if strict_neq (last_ms d) Null && strict_neq (sector_1_ms d) Null &&
     strict_neq (sector_2_ms d) Null && strict_neq (sector_3_ms d) Null
  then true else false.

Definition clearPrevData (w : widget) : widget :=
  Widget (prevDriver w) (nextDriver w)
         (set_text placeholder (prevDelta w)) (nextDelta w)
         (set_text placeholder <$> prevSectors w) (nextSectors w)
         (console_errors w).

Definition clearNextData (w : widget) : widget :=
  Widget (prevDriver w) (nextDriver w)
         (prevDelta w) (set_text placeholder (nextDelta w))
         (prevSectors w) (set_text placeholder <$> nextSectors w)
         (console_errors w).

(** The two statements that show a delta in an element:
    [el.textContent = formatDelta(delta); updateElementDelta(el, delta)]. *)
Definition show_delta (delta : value) (el : element) : element :=
  updateElementDelta (set_text (formatDelta delta) el) delta.

Definition lap_delta (p n : pace_data) : value := sub (lap_ms p) (lap_ms n).

Definition sector_delta (i : nat) (p n : pace_data) : value :=
  sub (sector_ms (Z.of_nat i + 1) p) (sector_ms (Z.of_nat i + 1) n).

Definition with_prevDelta (f : element -> element) (w : widget) : widget :=
  Widget (prevDriver w) (nextDriver w) (f (prevDelta w)) (nextDelta w)
         (prevSectors w) (nextSectors w) (console_errors w).

Definition with_nextDelta (f : element -> element) (w : widget) : widget :=
  Widget (prevDriver w) (nextDriver w) (prevDelta w) (f (nextDelta w))
         (prevSectors w) (nextSectors w) (console_errors w).

Definition with_prevSector (i : nat) (f : element -> element) (w : widget)
  : widget :=
  Widget (prevDriver w) (nextDriver w) (prevDelta w) (nextDelta w)
         (alter f i (prevSectors w)) (nextSectors w) (console_errors w).

Definition with_nextSector (i : nat) (f : element -> element) (w : widget)
  : widget :=
  Widget (prevDriver w) (nextDriver w) (prevDelta w) (nextDelta w)
         (prevSectors w) (alter f i (nextSectors w)) (console_errors w).

Definition console_error (msg : string) (w : widget) : widget :=
  Widget (prevDriver w) (nextDriver w) (prevDelta w) (nextDelta w)
         (prevSectors w) (nextSectors w) (console_errors w ++ [msg]).

Definition both_unavailable_msg : string :=
  "Both prev and next data are unavailable".

Section Helpers.
(** [truncateName(...)] from the shared utilities followed by
    [.toUpperCase()]. *)
Variable truncateName : string -> string.
Variable toUpperCase : string -> string.

Definition getDriverName (driver : pace_data) : string :=
  match name driver with
  | None => "---"
  | Some n => toUpperCase (truncateName n)
  end.

Definition fill_names (d : data) (w : widget) : widget :=
  let w :=
    if bool_decide (name (prev d) <> None)
    then Widget (set_text (getDriverName (prev d)) (prevDriver w))
                (nextDriver w) (prevDelta w) (nextDelta w)
                (prevSectors w) (nextSectors w) (console_errors w)
    else w in
  if bool_decide (name (next d) <> None)
  then Widget (prevDriver w)
              (set_text (getDriverName (next d)) (nextDriver w))
              (prevDelta w) (nextDelta w)
              (prevSectors w) (nextSectors w) (console_errors w)
  else w.

(** Body of [for (let i = 0; i < 3; i++)]. *)
Definition sector_step (d : data) (isPrev isNext : bool)
    (w : widget) (i : nat) : widget :=
  let w :=
    if isPrev
    then with_prevSector i (show_delta (sector_delta i (player d) (prev d))) w
    else w in
  if isNext
  then with_nextSector i (show_delta (sector_delta i (player d) (next d))) w
  else w.

Definition update (d : data) (w : widget) : widget :=
  let w := clearNextData (clearPrevData w) in
  let w := fill_names d w in
  if negb (isDataAvailable (player d)) then w
  else
    let isPrevDataAvailable := isDataAvailable (prev d) in
    let isNextDataAvailable := isDataAvailable (next d) in
    let w :=
      if isPrevDataAvailable
      then with_prevDelta (show_delta (lap_delta (player d) (prev d))) w
      else w in
    let w :=
      if isNextDataAvailable
      then with_nextDelta (show_delta (lap_delta (player d) (next d))) w
      else w in
    if negb isPrevDataAvailable && negb isNextDataAvailable
    then console_error both_unavailable_msg w
    else
      foldl (sector_step d isPrevDataAvailable isNextDataAvailable)
            w [0; 1; 2]%nat.
End Helpers.

End PaceComparison.

(** ** The lap-time table widget *)
Module LapTimeTableWidget.
Import JS Dom.

(** One element of ['lap-time-history-data']. [tyre_set_info] is [None]
    for [null], otherwise it carries ['visual-tyre-compound']. *)
Record lap_data : Type := LapData {
  tyre_set_info : option string;
  lap_time_in_ms : value;
  lap_time_str : string;
  sector_1_time_in_ms : value;
  sector_1_time_str : string;
  sector_2_time_in_ms : value;
  sector_2_time_str : string;
  sector_3_time_in_ms : value;
  sector_3_time_str : string;
  lap_valid_bit_flags : Z
}.

Record lap_time_history : Type := LapTimeHistory {
  fastest_lap_number : value;
  fastest_s1_lap_number : value;
  fastest_s2_lap_number : value;
  fastest_s3_lap_number : value;
  global_fastest_lap_ms : value;
  global_fastest_s1_ms : value;
  global_fastest_s2_ms : value;
  global_fastest_s3_ms : value;
  lap_time_history_data : list lap_data
}.

(** A row inserted in the table: its six cells. The compound cell holds
    the tyre icon of a compound, or nothing. *)
Record row : Type := Row {
  lapNumCell : Z;
  lapTimeCell : element;
  s1TimeCell : element;
  s2TimeCell : element;
  s3TimeCell : element;
  compoundCell : option string
}.

Definition getValidTimeStr (timeMs : value) (timeStr : string) : string :=
  if strict_eq timeMs (Num 0) then "---" else timeStr.

Definition applyColourToCell (cell : element) (lapNum : Z)
    (time globalBestTime pbLapNum : value) (isValid : Z) (typeStr : string)
  : element :=
  if truthy globalBestTime && strict_eq time globalBestTime
  then classList_add "text-purple" cell
  else if truthy pbLapNum && strict_eq (Num lapNum) pbLapNum
  then classList_add "text-success" cell
  else if negb (truthy (Num isValid))
  then classList_add "text-danger" cell
  else cell.

Definition numRows : nat := 5.

Definition lapValidMask : Z := 1.
Definition s1ValidMask : Z := 2.
Definition s2ValidMask : Z := 4.
Definition s3ValidMask : Z := 8.

(** Body of the [for] loop of [update], for the entry at index [i].
    The validity flags are a small non-negative bit field, on which the
    32-bit [&] of JavaScript is [Z.land]. *)
Definition render_row (h : lap_time_history) (i : Z) (lapData : lap_data) : row :=
  let lapNumber := i + 1 in
  let compound :=
    match tyre_set_info lapData with
    | Some c => c
    | None => ""
    end in
  let validFlags := lap_valid_bit_flags lapData in
  let time_cell (ms : value) (str : string) (globalBest pb : value)
                (mask : Z) (typeStr : string) : element :=
    applyColourToCell (set_text (getValidTimeStr ms str) fresh)
                      lapNumber ms globalBest pb
                      (Z.land validFlags mask) typeStr in
  Row lapNumber
      (time_cell (lap_time_in_ms lapData) (lap_time_str lapData)
                 (global_fastest_lap_ms h) (fastest_lap_number h)
                 lapValidMask "lap")
      (time_cell (sector_1_time_in_ms lapData) (sector_1_time_str lapData)
                 (global_fastest_s1_ms h) (fastest_s1_lap_number h)
                 s1ValidMask "s1")
      (time_cell (sector_2_time_in_ms lapData) (sector_2_time_str lapData)
                 (global_fastest_s2_ms h) (fastest_s2_lap_number h)
                 s2ValidMask "s2")
      (time_cell (sector_3_time_in_ms lapData) (sector_3_time_str lapData)
                 (global_fastest_s3_ms h) (fastest_s3_lap_number h)
                 s3ValidMask "s3")
      (if bool_decide (compound = "") then None else Some compound).

(** [for (let i = len - 1; i >= 0 && count < numRows; i--, count++)]:
    [remaining] is [numRows - count]. The index stays below the length,
    so the read [lapHistoryData[i]] always finds an entry. *)
Fixpoint update_loop (h : lap_time_history) (i : Z) (remaining : nat)
  : list row :=
  match remaining with
  | O => []
  | S remaining' =>
      if i >=? 0 then
        match lap_time_history_data h !! Z.to_nat i with
        | Some lapData =>
            render_row h i lapData :: update_loop h (i - 1) remaining'
        | None => []
        end
      else []
  end.

(** The rows of the table after [update]; [None] is [null]. *)
Definition update (lapTimeHistory : option lap_time_history) : list row :=
  match lapTimeHistory with
  | None => []
  | Some h =>
      update_loop h (Z.of_nat (length (lap_time_history_data h)) - 1) numRows
  end.

End LapTimeTableWidget.

Import JS Dom.


(** ** telemetryRenderer.js, the methods that touch the page *)
Module TelemetryRendererDom.
Import JS.

(** [t] is a prefix of [s]. *)
Fixpoint starts_with (t s : string) : bool :=
  match t, s with
  | EmptyString, _ => true
  | String _ _, EmptyString => false
  | String a t', String b s' =>
      if bool_decide (a = b) then starts_with t' s' else false
  end.

(** [s.includes(t)]: [t] occurs in [s] at some offset. *)
Fixpoint includes (s t : string) : bool :=
  starts_with t s
  || match s with
     | EmptyString => false
     | String _ s' => includes s' t
     end.

Definition unsupportedSessionTypes : list string :=
  ["Qualifying"; "Practice"; "Sprint Shootout"].

Definition shouldShowLapNumber (sessionType : string) : bool :=
  negb (existsb (fun type => includes sessionType type)
                unsupportedSessionTypes).

(** A [th] of the race table: its text and its [style.display]. *)
Record header : Type := Header {
  header_text : string;
  header_display : string
}.

(** The race table as [hideColumn] sees it: every [th], and every [tr] in
    document order as the list of the [style.display] of its [td] cells.
    The first [tr] is the header row. *)
Record race_table : Type := RaceTable {
  headers : list header;
  rows : list (list string)
}.

(** The search loop of [hideColumn]: the index of the first header whose
    text is the column name; [None] is the initial [-1]. *)
Fixpoint find_column (columnName : string) (hs : list header) (i : nat)
  : option nat :=
  match hs with
  | [] => None
  | h :: rest =>
      if bool_decide (header_text h = columnName) then Some i
      else find_column columnName rest (S i)
  end.

Definition set_header_display (d : string) (h : header) : header :=
  Header (header_text h) d.

(** [if (cells.length > columnIndex) cells[columnIndex].style.display = d] *)
Definition set_cell_display (columnIndex : nat) (d : string)
    (cells : list string) : list string :=
  if bool_decide (columnIndex < length cells)%nat
  then <[columnIndex := d]> cells
  else cells.

Definition hideColumn (columnName : string) (shouldHide : bool)
    (t : race_table) : race_table :=
  let d := if shouldHide then "none" else "" in
  match find_column columnName (headers t) 0 with
  | None => t
  | Some columnIndex =>
      RaceTable
        (alter (set_header_display d) columnIndex (headers t))
        match rows t with
        | [] => []
        | first :: rest => first :: (set_cell_display columnIndex d <$> rest)
        end
  end.

Definition setDeltaColumnState (isLiveDataMode : bool) (t : race_table)
  : race_table :=
  hideColumn "DELTA" isLiveDataMode t.

Definition setFuelColumnState (isLiveDataMode : bool) (t : race_table)
  : race_table :=
  let shouldHide := negb isLiveDataMode in
  hideColumn "FUEL" shouldHide t.

End TelemetryRendererDom.

(** ** The driver modal: collisions, fuel usage and ERS tabs *)
Module DriverModalDataPopulator.

(** One element of [data["collisions"]["records"]]. *)
Record collision_record : Type := CollisionRecord {
  driver_1_index : Z;
  driver_1_name : string;
  driver_1_lap : Z;
  driver_2_index : Z;
  driver_2_name : string;
  driver_2_lap : Z
}.

Definition getCollisionOtherDriverName (index : Z) (data : collision_record)
  : string :=
  if index =? driver_1_index data then driver_2_name data
  else driver_1_name data.

Definition getCollisionLapNumber (index : Z) (data : collision_record) : Z :=
  if index =? driver_1_index data then driver_1_lap data
  else driver_2_lap data.

(** The body rows of the collisions table: ID, colliding driver, lap. *)
Definition populateCollisionsInfoTab (playerIndex : Z)
    (records : list collision_record) : list (Z * string * Z) :=
  imap (fun index record =>
          (Z.of_nat index + 1,
           getCollisionOtherDriverName playerIndex record,
           getCollisionLapNumber playerIndex record))
       records.

Section FuelUsage.
(** Fuel figures are floating-point numbers; their type, their
    subtraction and [x.toFixed(2)] are taken as given. *)
Variable float : Type.
Variable fsub : float -> float -> float.
Variable toFixed2 : float -> string.

(** The two fields of ["car-status-data"] that the fuel tab reads. *)
Record fuel_status : Type := FuelStatus {
  fuel_in_tank : float;
  fuel_remaining_laps : float
}.

(** One element of [data["per-lap-info"]] as the fuel tab reads it;
    [car_status_data] is [None] when the key is absent. *)
Record per_lap_info : Type := PerLapInfo {
  lap_number : Z;
  car_status_data : option fuel_status
}.

Record fuel_row : Type := FuelRow {
  lapCell : Z;
  fuelLoadCell : string;
  usagePerLapCell : string;
  excessLapsCell : string;
  excessLapsDeltaCell : string
}.

(** The variables the [forEach] callback reads and writes. *)
Record fuel_state : Type := FuelState {
  previousFuelLoad : option float;
  previousExcessLaps : option float;
  tbody : list fuel_row;
  fuelUsagePerLap : list (Z * float)
}.

Definition fuel_init : fuel_state := FuelState None None [] [].

(** The callback of [fuelUsageData.forEach], for an entry whose
    ["car-status-data"] is [status]. *)
Definition fuel_record_lap (st : fuel_state) (lapNumber : Z)
    (status : fuel_status) : fuel_state :=
  let excessLaps := fuel_remaining_laps status in
  let usage :=
    match previousFuelLoad st with
    | Some previous => Some (fsub previous (fuel_in_tank status))
    | None => None
    end in
  let row :=
    FuelRow lapNumber
            (toFixed2 (fuel_in_tank status))
            match usage with
            | Some usagePerLap => toFixed2 usagePerLap
            | None => "-"
            end
            (toFixed2 excessLaps)
            match previousExcessLaps st with
            | Some previous => toFixed2 (fsub excessLaps previous)
            | None => "-"
            end in
  FuelState (Some (fuel_in_tank status)) (Some excessLaps)
            (tbody st ++ [row])
            match usage with
            | Some usagePerLap =>
                fuelUsagePerLap st ++ [(lapNumber, usagePerLap)]
            | None => fuelUsagePerLap st
            end.

(** The callback of [fuelUsageData.forEach]. The tab reads
    [lapData["car-status-data"]["fuel-in-tank"]] without a test: on an
    entry without the key this throws a [TypeError], here [None]. *)
Definition fuel_step (st : fuel_state) (lapData : per_lap_info)
  : option fuel_state :=
  match car_status_data lapData with
  | None => None
  | Some status => Some (fuel_record_lap st (lap_number lapData) status)
  end.

(** [fuelUsageData.forEach(...)]: an exception in the callback ends the
    loop. *)
Fixpoint fuel_loop (st : fuel_state) (fuelUsageData : list per_lap_info)
  : option fuel_state :=
  match fuelUsageData with
  | [] => Some st
  | lapData :: rest =>
      match fuel_step st lapData with
      | Some st' => fuel_loop st' rest
      | None => None
      end
  end.

(** The table body and the data set handed to the graph; [None] when
    the loop throws, in which case nothing is added to the tab. *)
Definition populateFuelUsageTab (fuelUsageData : list per_lap_info)
  : option (list fuel_row * list (Z * float)) :=
  match fuel_loop fuel_init fuelUsageData with
  | Some st => Some (tbody st, fuelUsagePerLap st)
  | None => None
  end.
End FuelUsage.

Section ErsHistory.
(** ERS figures are floating-point numbers; their type, the arithmetic
    used on them and [formatFloatWithTwoDecimals] are taken as given. *)
Variable float : Type.
Variable fadd : float -> float -> float.
Variable fdiv : float -> float -> float.
Variable fmul : float -> float -> float.
Variable hundred : float.
Variable formatFloatWithTwoDecimals : float -> string.

Record ers_status : Type := ErsStatus {
  ers_max_capacity : float;
  ers_store_energy : float;
  ers_deployed_this_lap : float;
  ers_harvested_this_lap_mguh : float;
  ers_harvested_this_lap_mguk : float
}.

(** One element of [data["per-lap-info"]] as the ERS tab reads it;
    [ers_car_status_data] is [None] when the key is absent. *)
Record ers_lap_info : Type := ErsLapInfo {
  ers_lap_number : Z;
  ers_car_status_data : option ers_status
}.

(** A row of the table body: the "ERS data not available" message, a row
    left without cells, or the six cells of a lap. *)
Inductive ers_row : Type :=
| ErsMessage
| ErsBlank
| ErsCells (lap : Z) (remaining deployed mguh mguk harvested : string).

Record ers_state : Type := ErsState {
  ers_tbody : list ers_row;
  graphDataDeployed : list (Z * float);
  graphDataRemaining : list (Z * float);
  graphDataHarvested : list (Z * float)
}.

(** [(value / maxErsCapacity) * 100] *)
Definition ers_percent (value maxErsCapacity : float) : float :=
  fmul (fdiv value maxErsCapacity) hundred.

(** The callback of [perLapInfo.forEach]; [len] is [perLapInfo.length]. *)
Definition ers_step (len : nat) (st : ers_state) (lapInfo : ers_lap_info)
  : ers_state :=
  let currentLapNum := ers_lap_number lapInfo in
  if currentLapNum =? 0 then
    ErsState (ers_tbody st ++ [if bool_decide (len = 1%nat)
                               then ErsMessage else ErsBlank])
             (graphDataDeployed st) (graphDataRemaining st)
             (graphDataHarvested st)
  else
    match ers_car_status_data lapInfo with
    | None =>
        ErsState (ers_tbody st
                  ++ [ErsCells currentLapNum "---" "---" "---" "---" "---"])
                 (graphDataDeployed st) (graphDataRemaining st)
                 (graphDataHarvested st)
    | Some status =>
        let maxErsCapacity := ers_max_capacity status in
        let remaining := ers_percent (ers_store_energy status) maxErsCapacity in
        let deployed :=
          ers_percent (ers_deployed_this_lap status) maxErsCapacity in
        let harvested :=
          ers_percent (fadd (ers_harvested_this_lap_mguh status)
                            (ers_harvested_this_lap_mguk status))
                      maxErsCapacity in
        let show x := formatFloatWithTwoDecimals x +:+ "%" in
        ErsState
          (ers_tbody st
           ++ [ErsCells currentLapNum (show remaining) (show deployed)
                 (show (ers_percent (ers_harvested_this_lap_mguh status)
                                    maxErsCapacity))
                 (show (ers_percent (ers_harvested_this_lap_mguk status)
                                    maxErsCapacity))
                 (show harvested)])
          (graphDataDeployed st ++ [(currentLapNum, deployed)])
          (graphDataRemaining st ++ [(currentLapNum, remaining)])
          (graphDataHarvested st ++ [(currentLapNum, harvested)])
    end.

(** The table body and the three data sets of the graph. *)
Definition populateERSHistoryTab (perLapInfo : list ers_lap_info) : ers_state :=
  if bool_decide (0 < length perLapInfo)%nat
  then foldl (ers_step (length perLapInfo)) (ErsState [] [] [] []) perLapInfo
  else ErsState [ErsMessage] [] [] [].
End ErsHistory.

End DriverModalDataPopulator.

(** ** Vocabulary of the statements *)

(** A position that fails the guard of [getAdjacentPositions]: a number
    outside [[1, total]], or a value that is not a number at all ([null]
    coerces to 0, [undefined] and [NaN] compare false with everything). *)
Definition outside_range (position : value) (total : Z) : Prop :=
  match position with
  | Num p => p < 1 \/ total < p
  | _ => True
  end.

(** Each element is the previous one plus one. *)
Definition consecutive (l : list Z) : Prop :=
  forall (i : nat) (x y : Z), l !! i = Some x -> l !! S i = Some y -> y = x + 1.

(** How a reader of the overlay sees a delta, from the classes of its
    element. *)
Inductive pace_class : Type := Slower | Faster | Neutral.

Definition classify_pace (el : element) : pace_class :=
  if bool_decide ("text-danger" ∈ classList el) then Slower
  else if bool_decide ("text-success" ∈ classList el) then Faster
  else Neutral.

(** The four colour classes of a lap-time cell. *)
Inductive time_colour : Type := FastestOverall | PersonalBest | Invalid | Default.

Definition colour_of (el : element) : time_colour :=
  if bool_decide ("text-purple" ∈ classList el) then FastestOverall
  else if bool_decide ("text-success" ∈ classList el) then PersonalBest
  else if bool_decide ("text-danger" ∈ classList el) then Invalid
  else Default.

(** One of the two neighbours of the player, and one of the four time
    slots shown for it. *)
Inductive side : Type := Prev | Next.
Inductive slot : Type := Lap | Sector1 | Sector2 | Sector3.

Definition neighbor (sd : side) (d : PaceComparison.data) : PaceComparison.pace_data :=
  match sd with
  | Prev => PaceComparison.prev d
  | Next => PaceComparison.next d
  end.

(** The time a slot compares: ['lap-ms'] or ['sector-N-ms']. *)
Definition slot_time (s : slot) (d : PaceComparison.pace_data) : value :=
  match s with
  | Lap => PaceComparison.lap_ms d
  | Sector1 => PaceComparison.sector_1_ms d
  | Sector2 => PaceComparison.sector_2_ms d
  | Sector3 => PaceComparison.sector_3_ms d
  end.

(** The element a slot is shown in, when the widget has it. *)
Definition slot_element (sd : side) (s : slot) (w : PaceComparison.widget)
  : option element :=
  let sectors :=
    match sd with
    | Prev => PaceComparison.prevSectors w
    | Next => PaceComparison.nextSectors w
    end in
  match s with
  | Lap => Some match sd with
                | Prev => PaceComparison.prevDelta w
                | Next => PaceComparison.nextDelta w
                end
  | Sector1 => sectors !! 0%nat
  | Sector2 => sectors !! 1%nat
  | Sector3 => sectors !! 2%nat
  end.

(** The time fields of a driver are all present: none of the four keys
    read by the availability test is [null]. *)
Definition times_present (d : PaceComparison.pace_data) : Prop :=
  PaceComparison.last_ms d <> Null
  /\ PaceComparison.sector_1_ms d <> Null
  /\ PaceComparison.sector_2_ms d <> Null
  /\ PaceComparison.sector_3_ms d <> Null.

(** Every time of a driver is there: the three sector times, and the
    lap time under the key the availability test reads as well as under
    the key the lap delta subtracts. *)
Definition all_times_present (d : PaceComparison.pace_data) : Prop :=
  PaceComparison.last_ms d <> Null
  /\ PaceComparison.lap_ms d <> Null
  /\ PaceComparison.sector_1_ms d <> Null
  /\ PaceComparison.sector_2_ms d <> Null
  /\ PaceComparison.sector_3_ms d <> Null.

(** A time of a driver is missing: a sector time is [null], or the lap
    time is [null] under both of its keys. A lap time that is [null]
    under one key only is neither present nor missing in this sense. *)
Definition a_time_missing (d : PaceComparison.pace_data) : Prop :=
  PaceComparison.sector_1_ms d = Null
  \/ PaceComparison.sector_2_ms d = Null
  \/ PaceComparison.sector_3_ms d = Null
  \/ (PaceComparison.last_ms d = Null /\ PaceComparison.lap_ms d = Null).

(** The class a delta of [z] milliseconds must get. *)
Definition sign_class (z : Z) : pace_class :=
  if 0 <? z then Slower else if z <? 0 then Faster else Neutral.

(** The three colouring rules of a lap-time cell, in the words of the
    precedence list, and the rule that wins. A global best or a
    personal-best lap number counts only when it is set (a number other
    than zero). *)
Definition is_fastest_overall (time globalBest : value) : bool :=
  match time, globalBest with
  | Num t, Num best => (t =? best) && negb (best =? 0)
  | _, _ => false
  end.

Definition is_personal_best (lapNum : Z) (pbLapNum : value) : bool :=
  match pbLapNum with
  | Num k => (k =? lapNum) && negb (k =? 0)
  | _ => false
  end.

Definition is_flagged_invalid (validFlags mask : Z) : bool :=
  Z.land validFlags mask =? 0.

Definition first_matching_rule (fastest pb invalid : bool) : time_colour :=
  if fastest then FastestOverall
  else if pb then PersonalBest
  else if invalid then Invalid
  else Default.

(** The classes a cell carries when it has a colour and no other: one
    class for each of the three colours, none for the default. *)
Definition colour_classes (c : time_colour) : list string :=
  match c with
  | FastestOverall => ["text-purple"]
  | PersonalBest => ["text-success"]
  | Invalid => ["text-danger"]
  | Default => []
  end.

(** ** Sample inputs *)

(** A car of the race table. *)
Definition car (player : bool) (pos : Z) (label : string)
  : TelemetryRenderer.table_entry :=
  TelemetryRenderer.TableEntry
    (TelemetryRenderer.DriverInfo player (Num pos) (pos - 1)) label.

(** Three cars, the player in front. *)
Definition small_grid : TelemetryRenderer.snapshot :=
  TelemetryRenderer.Snapshot
    [car true 1 "A"; car false 2 "B"; car false 3 "C"] false false.

(** Two cars, none of them the player. *)
Definition no_player_grid : TelemetryRenderer.snapshot :=
  TelemetryRenderer.Snapshot [car false 1 "A"; car false 2 "B"] false false.

(** Two cars, the player's position beyond the end of the table. *)
Definition stray_player_grid : TelemetryRenderer.snapshot :=
  TelemetryRenderer.Snapshot [car true 5 "A"; car false 2 "B"] false false.

(** Timing data with every field present. *)
Definition timed (who : string) (lap s1 s2 s3 : Z) : PaceComparison.pace_data :=
  PaceComparison.PaceData (Some who) (Num lap) (Num lap)
                          (Num s1) (Num s2) (Num s3).

(** Timing data before any lap is set: every field [null]. *)
Definition untimed : PaceComparison.pace_data :=
  PaceComparison.PaceData None Null Null Null Null Null.

(** The overlay as the page creates it. *)
Definition blank_overlay : PaceComparison.widget :=
  PaceComparison.Widget fresh fresh fresh fresh
                        [fresh; fresh; fresh] [fresh; fresh; fresh] [].

(** A lap of the history: time, the three sector times, validity flags. *)
Definition lap (ms s1 s2 s3 : Z) (str : string) (flags : Z)
  : LapTimeTableWidget.lap_data :=
  LapTimeTableWidget.LapData (Some "Soft") (Num ms) str
    (Num s1) "s1" (Num s2) "s2" (Num s3) "s3" flags.

(** Two completed laps and a third one under way. The first lap is both
    the fastest lap of the session and the driver's personal best. *)
Definition three_laps : LapTimeTableWidget.lap_time_history :=
  LapTimeTableWidget.LapTimeHistory
    (Num 1) (Num 2) (Num 1) (Num 1)
    (Num 90000) (Num 29000) (Num 30000) (Num 30500)
    [lap 90000 29500 30000 30500 "1:30.000" 15;
     lap 91000 29400 30600 31000 "1:31.000" 14;
     lap 0 29800 0 0 "0:00.000" 15].

(** A session in which nobody has set a lap: the global best is 0. *)
Definition first_lap_running : LapTimeTableWidget.lap_time_history :=
  LapTimeTableWidget.LapTimeHistory
    (Num 1) (Num 0) (Num 0) (Num 0)
    (Num 0) (Num 0) (Num 0) (Num 0)
    [lap 0 0 0 0 "0:00.000" 15].

(** Five cars in race order, the player third. *)
Definition five_grid : TelemetryRenderer.snapshot :=
  TelemetryRenderer.Snapshot
    [car false 1 "A"; car false 2 "B"; car true 3 "C";
     car false 4 "D"; car false 5 "E"] false false.

(** A race table with four columns, all visible: the header row, one
    full row and one row that stops after two cells. *)
Definition sample_table : TelemetryRendererDom.race_table :=
  TelemetryRendererDom.RaceTable
    [TelemetryRendererDom.Header "POS" "";
     TelemetryRendererDom.Header "DELTA" "";
     TelemetryRendererDom.Header "NAME" "";
     TelemetryRendererDom.Header "FUEL" ""]
    [[]; [""; ""; ""; ""]; [""; ""]].

(** The header at index [j] is the first one whose text is [c]. *)
Definition first_header_named (c : string) (j : nat)
    (hs : list TelemetryRendererDom.header) : Prop :=
  (exists h, hs !! j = Some h /\ TelemetryRendererDom.header_text h = c)
  /\ forall k h, (k < j)%nat -> hs !! k = Some h ->
                 TelemetryRendererDom.header_text h <> c.

(** The colour class a delta earns, if any. *)
Definition delta_token (delta : value) : list string :=
  if gt delta (Num 0) then ["text-danger"]
  else if lt delta (Num 0) then ["text-success"]
  else [].

(** Two states of the overlay show the same thing in every element. *)
Definition same_elements (w1 w2 : PaceComparison.widget) : Prop :=
  PaceComparison.prevDriver w1 = PaceComparison.prevDriver w2
  /\ PaceComparison.nextDriver w1 = PaceComparison.nextDriver w2
  /\ PaceComparison.prevDelta w1 = PaceComparison.prevDelta w2
  /\ PaceComparison.nextDelta w1 = PaceComparison.nextDelta w2
  /\ PaceComparison.prevSectors w1 = PaceComparison.prevSectors w2
  /\ PaceComparison.nextSectors w1 = PaceComparison.nextSectors w2.

(** An overlay that already shows a previous comparison. *)
Definition used_overlay : PaceComparison.widget :=
  PaceComparison.Widget
    (Element "HAMILTON" []) (Element "RUSSELL" [])
    (Element "+0.350" ["text-danger"]) (Element "-0.120" ["text-success"])
    [Element "+0.100" ["text-danger"]; fresh; fresh]
    [fresh; fresh; fresh] [].

(** The class lists a lap-time cell can end with. *)
Definition colour_class_lists : list (list string) :=
  [[]; ["text-purple"]; ["text-success"]; ["text-danger"]].

(** Two collisions of the driver with index 7. *)
Definition sample_collisions
  : list DriverModalDataPopulator.collision_record :=
  [DriverModalDataPopulator.CollisionRecord 7 "NORRIS" 3 4 "SAINZ" 2;
   DriverModalDataPopulator.CollisionRecord 9 "ALBON" 11 7 "NORRIS" 12].

(** Stand-in for [x.toFixed(2)] on figures counted in hundredths. *)
Definition hundredths_toFixed2 (z : Z) : string :=
  (if z <? 0 then "-" else "")
    +:+ pretty (Z.abs z / 100) +:+ "."
    +:+ (if Z.abs z mod 100 <? 10 then "0" else "")
    +:+ pretty (Z.abs z mod 100).

(** Three laps of fuel figures, in hundredths of a kilogram and of a
    lap. *)
Definition sample_fuel : list (DriverModalDataPopulator.per_lap_info Z) :=
  [DriverModalDataPopulator.PerLapInfo Z 0
     (Some (DriverModalDataPopulator.FuelStatus Z 5000 120));
   DriverModalDataPopulator.PerLapInfo Z 1
     (Some (DriverModalDataPopulator.FuelStatus Z 4820 115));
   DriverModalDataPopulator.PerLapInfo Z 2
     (Some (DriverModalDataPopulator.FuelStatus Z 4650 118))].

(** The same laps, the second one without car-status data. *)
Definition sample_fuel_gap : list (DriverModalDataPopulator.per_lap_info Z) :=
  [DriverModalDataPopulator.PerLapInfo Z 0
     (Some (DriverModalDataPopulator.FuelStatus Z 5000 120));
   DriverModalDataPopulator.PerLapInfo Z 1 None;
   DriverModalDataPopulator.PerLapInfo Z 2
     (Some (DriverModalDataPopulator.FuelStatus Z 4650 118))].

(** A lap the ERS graph plots: not lap 0, and with car-status data. *)
Definition ers_plotted {float : Type}
    (lapInfo : DriverModalDataPopulator.ers_lap_info float) : Prop :=
  DriverModalDataPopulator.ers_lap_number float lapInfo <> 0
  /\ DriverModalDataPopulator.ers_car_status_data float lapInfo <> None.

#[global] Instance ers_plotted_dec {float : Type}
    (lapInfo : DriverModalDataPopulator.ers_lap_info float)
  : Decision (ers_plotted lapInfo).
Proof.
  unfold ers_plotted.
  destruct (DriverModalDataPopulator.ers_car_status_data float lapInfo).
  - destruct (decide (DriverModalDataPopulator.ers_lap_number float lapInfo
                      = 0)) as [H | H].
    + right. intros [Hn _]. by apply Hn.
    + left. by split.
  - right. intros [_ Hn]. by apply Hn.
Defined.

(** ERS figures of a race start (lap 0) and two laps, the second
    without car-status data. *)
Definition sample_ers : list (DriverModalDataPopulator.ers_lap_info Z) :=
  [DriverModalDataPopulator.ErsLapInfo Z 0
     (Some (DriverModalDataPopulator.ErsStatus Z 4000 4000 0 0 0));
   DriverModalDataPopulator.ErsLapInfo Z 1
     (Some (DriverModalDataPopulator.ErsStatus Z 4000 3000 2000 400 600));
   DriverModalDataPopulator.ErsLapInfo Z 2 None].

(** ** Window selection *)
Section Window.
Import TelemetryRenderer.

Lemma array_from_length_seqZ (n lo : Z) :
  array_from_length n (fun i => lo + i) = seqZ lo n.
Proof.
  unfold array_from_length, seqZ. apply map_ext. intros i. lia.
Qed.

(** Past the guard, the result is the inclusive range of the final
    bounds. *)
Lemma getAdjacentPositions_in_range (p total r : Z) :
  1 <= p <= total ->
  getAdjacentPositions (Num p) total r =
    let b := final_bounds p total r in
    seqZ (lower_bound b) (upper_bound b - lower_bound b + 1).
Proof.
  intros Hp. unfold getAdjacentPositions, ge, le, compare_with. simpl.
  replace (p >=? 1) with true by lia.
  replace (p <=? total) with true by lia.
  simpl. apply array_from_length_seqZ.
Qed.

(** The staged definitions put together are the statements of the
    function body, in their order. *)
Lemma getAdjacentPositions_body (p total r : Z) :
  getAdjacentPositions (Num p) total r =
    if negb ((p >=? 1) && (p <=? total)) then []
    else
      let '(lo, hi) := if r >=? total then (1, total) else (p - r, p + r) in
      let '(lo, hi) := if lo <? 1 then (1, hi + (1 - lo)) else (lo, hi) in
      let '(lo, hi) :=
        if hi >? total then (lo - (hi - total), total) else (lo, hi) in
      array_from_length (hi - lo + 1) (fun i => lo + i).
Proof.
  unfold getAdjacentPositions, ge, le, compare_with, final_bounds,
    initial_bounds, correct_lower, correct_upper, min_valid_lower_bound.
  change (to_integer (Num p)) with p. cbn [to_number].
  destruct (negb ((p >=? 1) && (p <=? total))); [reflexivity |].
  destruct (r >=? total); cbn [lower_bound upper_bound fst snd].
  - destruct (1 <? 1); cbn [lower_bound upper_bound fst snd];
      destruct (_ >? total); reflexivity.
  - destruct (p - r <? 1); cbn [lower_bound upper_bound fst snd];
      destruct (_ >? total); reflexivity.
Qed.

Lemma getAdjacentPositions_outside (position : value) (total r : Z) :
  outside_range position total ->
  getAdjacentPositions position total r = [].
Proof.
  intros H. unfold getAdjacentPositions, ge, le, compare_with.
  destruct position as [ | | | p]; simpl in *; try reflexivity.
  destruct H as [H | H].
  - replace (p >=? 1) with false by lia. reflexivity.
  - replace (p <=? total) with false by lia.
    rewrite andb_false_r. reflexivity.
Qed.

Ltac bounds_cases :=
  unfold final_bounds, corrections_applied, initial_bounds, correct_lower,
    correct_upper, min_valid_lower_bound;
  repeat (case_match; simpl in * ); simpl; try lia.

(** The final bounds when the list is at least as wide as the window, or
    no wider than the radius. *)
Lemma final_bounds_wide (p total r : Z) :
  1 <= p <= total -> 0 <= r ->
  r >= total \/ 2 * r + 1 <= total ->
  let b := final_bounds p total r in
  1 <= lower_bound b /\ lower_bound b <= upper_bound b
  /\ upper_bound b <= total
  /\ upper_bound b - lower_bound b + 1 = Z.min (2 * r + 1) total.
Proof. intros Hp Hr Hw. bounds_cases. Qed.

(** In between, the lower bound ends below 1. *)
Lemma final_bounds_narrow (p total r : Z) :
  1 <= p <= total -> r < total < 2 * r + 1 ->
  final_bounds p total r = Bounds (total - 2 * r) total
  /\ (corrections_applied p total r).2 = true.
Proof. intros Hp Hw. bounds_cases; split; (f_equal; lia) || reflexivity. Qed.

Lemma final_bounds_contains (p total r : Z) :
  1 <= p <= total -> 0 <= r ->
  let b := final_bounds p total r in
  lower_bound b <= p <= upper_bound b.
Proof. intros Hp Hr. bounds_cases. Qed.

(** On such a table the two corrections never both run in one call. *)
Lemma corrections_exclusive_wide (p total r : Z) :
  1 <= p <= total -> 0 <= r ->
  r >= total \/ 2 * r + 1 <= total ->
  corrections_applied p total r <> (true, true).
Proof. intros Hp Hr Hw. bounds_cases; congruence. Qed.

(** The window property of the specification holds for every list that
    is at least [2 * radius + 1] long, or no longer than the radius. *)
Lemma getAdjacentPositions_window_wide (p total r : Z) :
  1 <= p <= total -> 0 <= r ->
  r >= total \/ 2 * r + 1 <= total ->
  exists lo hi,
    getAdjacentPositions (Num p) total r = seqZ lo (hi - lo + 1)
    /\ 1 <= lo /\ lo <= hi /\ hi <= total
    /\ hi - lo + 1 = Z.min (2 * r + 1) total.
Proof.
  intros Hp Hr Hw.
  exists (lower_bound (final_bounds p total r)),
         (upper_bound (final_bounds p total r)).
  split; [by apply getAdjacentPositions_in_range |].
  by apply final_bounds_wide.
Qed.

Lemma slice_whole {A} (l : list A) : slice l NaN Undefined = l.
Proof.
  unfold slice, relative_index. cbn [to_integer to_number].
  change (0 <? 0) with false. cbv iota.
  rewrite (proj2 (Z.ltb_ge _ _)) by lia.
  rewrite Z.min_id, !Z.min_l, Z.sub_0_r, Z.max_l by lia.
  rewrite Nat2Z.id. simpl. apply firstn_all.
Qed.

Lemma getPlayerPosition_loop_no_player (l : list table_entry) :
  (forall e, e ∈ l -> is_player (entry_driver_info e) = false) ->
  getPlayerPosition_loop l = Null.
Proof.
  induction l as [ | e l IH]; intros H; simpl; [reflexivity |].
  rewrite (H e) by apply list_elem_of_here.
  apply IH. intros e' He'. apply H. by apply list_elem_of_further.
Qed.

(** When the window comes back empty the slice is the whole table. *)
Lemma getRelevantRaceTableRows_empty_window (r : Z) (data : snapshot) :
  getAdjacentPositions (getPlayerPosition data)
    (Z.of_nat (length (table_entries data))) r = [] ->
  getRelevantRaceTableRows r data = table_entries data.
Proof.
  intros Hw. unfold getRelevantRaceTableRows.
  destruct (table_entries data) as [ | e l] eqn:E; [reflexivity |].
  replace (Z.of_nat (length (e :: l)) =? 0) with false by (simpl; lia).
  destruct (is_spectating data || race_ended data); [reflexivity |].
  rewrite <- E in *. rewrite Hw. simpl. apply slice_whole.
Qed.

End Window.

(** ** Claims about the window and the visible rows *)
Section WindowClaims.
Import TelemetryRenderer.

(** Whenever the list is longer than the radius but shorter than the
    full window, both bounds end up shifted: the range starts at
    [total - 2 * radius], which is below 1, and is [2 * radius + 1] wide. *)
Lemma getAdjacentPositions_narrow (p total r : Z) :
  1 <= p <= total -> r < total < 2 * r + 1 ->
  getAdjacentPositions (Num p) total r = seqZ (total - 2 * r) (2 * r + 1)
  /\ total - 2 * r < 1.
Proof.
  intros Hp Hw. rewrite getAdjacentPositions_in_range by done.
  destruct (final_bounds_narrow p total r Hp Hw) as [-> _]. simpl.
  split; [f_equal; lia | lia].
Qed.

(** With three cars and a radius of two, the rows handed to the table
    are the last two: the player's own row is cut. *)
Lemma getRelevantRaceTableRows_small_grid :
  getRelevantRaceTableRows 2 small_grid =
    [car false 2 "B"; car false 3 "C"].
Proof. reflexivity. Qed.

(** C1, at the input (position 1, 3 cars, radius 2): the code returns
    the five positions -1 .. 3. This is no inclusive range inside
    [[1, 3]] of width min(2*2+1, 3) = 3, which is what the claim asks
    for every position in range and every radius >= 0. *)
Theorem getAdjacentPositions_position1_of_3_radius2 :
  getAdjacentPositions (Num 1) 3 2 = [-1; 0; 1; 2; 3]
  /\ ~ (exists lo hi,
          getAdjacentPositions (Num 1) 3 2 = seqZ lo (hi - lo + 1)
          /\ 1 <= lo /\ lo <= hi /\ hi <= 3
          /\ hi - lo + 1 = Z.min (2 * 2 + 1) 3).
Proof.
  split; [reflexivity |].
  intros (lo & hi & Heq & Hlo & Hle & Hhi & Hw).
  apply (f_equal length) in Heq. rewrite length_seqZ in Heq.
  simpl in Heq. lia.
Qed.

(** C2, at the same input (position 1, 3 cars, radius 2): the
    lower-bound correction runs and then the upper-bound correction runs
    too, in one call. The radius test of the first step only ensures
    3 > 2, not 3 >= 2*2+1. *)
Theorem corrections_both_applied_position1_of_3_radius2 :
  corrections_applied 1 3 2 = (true, true)
  /\ initial_bounds 1 3 2 = Bounds (-1) 3
  /\ final_bounds 1 3 2 = Bounds (-1) 3.
Proof. repeat split. Qed.

(** C3 as stated does not hold: with no player among two cars the
    position is [null], the window is empty, and yet the caller returns
    both rows, not an empty list. *)
Lemma out_of_range_position_rows_not_empty :
  ~ (forall (position : value) (total r : Z) (data : snapshot),
        outside_range position total ->
        getAdjacentPositions position total r = []
        /\ (getPlayerPosition data = position ->
            Z.of_nat (length (table_entries data)) = total ->
            getRelevantRaceTableRows r data = [])).
Proof.
  intros H.
  destruct (H Null 2 2 no_player_grid I) as [_ Hrows].
  specialize (Hrows eq_refl eq_refl). discriminate Hrows.
Qed.

(** C3, amended: for every position outside [[1, total]] (a number out
    of range, [null], [undefined] or NaN), [getAdjacentPositions] returns
    the empty array, and [getRelevantRaceTableRows], called on a snapshot
    whose player position is such a value, returns the whole
    table-entries list. Both are total functions: nothing is thrown. *)
Theorem out_of_range_position_shows_all_rows
    (position : value) (total r : Z) (data : snapshot) :
  outside_range position total ->
  getAdjacentPositions position total r = []
  /\ (getPlayerPosition data = position ->
      Z.of_nat (length (table_entries data)) = total ->
      getRelevantRaceTableRows r data = table_entries data).
Proof.
  intros Hout. split; [by apply getAdjacentPositions_outside |].
  intros Hp Ht. apply getRelevantRaceTableRows_empty_window.
  rewrite Hp, Ht. by apply getAdjacentPositions_outside.
Qed.

Lemma out_of_range_position_shows_all_rows_witness :
  outside_range (Num 5) 2
  /\ getAdjacentPositions (Num 5) 2 3 = []
  /\ getRelevantRaceTableRows 3 stray_player_grid
       = [car true 5 "A"; car false 2 "B"].
Proof.
  assert (Hout : outside_range (Num 5) 2) by (simpl; lia).
  destruct (out_of_range_position_shows_all_rows
              (Num 5) 2 3 stray_player_grid Hout) as [Hwin Hrows].
  split; [exact Hout |]. split; [exact Hwin |].
  exact (Hrows eq_refl eq_refl).
Defined.

(** C4: for every snapshot whose table-entries list is non-empty, with
    is-spectating and race-ended both false, and in which no entry has
    is-player set, [getRelevantRaceTableRows] returns the full
    table-entries list. *)
Theorem missing_player_shows_all_rows (r : Z) (data : snapshot) :
  table_entries data <> [] ->
  is_spectating data = false ->
  race_ended data = false ->
  Forall (fun e => is_player (entry_driver_info e) = false)
         (table_entries data) ->
  getRelevantRaceTableRows r data = table_entries data.
Proof.
  intros _ _ _ Hnone. apply getRelevantRaceTableRows_empty_window.
  unfold getPlayerPosition.
  rewrite getPlayerPosition_loop_no_player; [reflexivity |].
  intros e He. by apply (proj1 (Forall_forall _ _) Hnone).
Qed.

Lemma missing_player_shows_all_rows_witness :
  table_entries no_player_grid <> []
  /\ is_spectating no_player_grid = false
  /\ race_ended no_player_grid = false
  /\ Forall (fun e => is_player (entry_driver_info e) = false)
            (table_entries no_player_grid)
  /\ getRelevantRaceTableRows 3 no_player_grid
       = [car false 1 "A"; car false 2 "B"].
Proof.
  assert (Hne : table_entries no_player_grid <> []) by discriminate.
  assert (Hall : Forall (fun e => is_player (entry_driver_info e) = false)
                        (table_entries no_player_grid))
    by (repeat constructor).
  split; [exact Hne |].
  split; [reflexivity |]. split; [reflexivity |]. split; [exact Hall |].
  exact (missing_player_shows_all_rows 3 no_player_grid
           Hne eq_refl eq_refl Hall).
Defined.

(** C5: the four worked examples. (1, 20, 3) gives 1..7; (20, 20, 3)
    gives 14..20; (10, 20, 3) gives 7..13; (5, 3, 3) gives the empty
    array. *)
Theorem getAdjacentPositions_worked_examples :
  getAdjacentPositions (Num 1) 20 3 = [1; 2; 3; 4; 5; 6; 7]
  /\ getAdjacentPositions (Num 20) 20 3 = [14; 15; 16; 17; 18; 19; 20]
  /\ getAdjacentPositions (Num 10) 20 3 = [7; 8; 9; 10; 11; 12; 13]
  /\ getAdjacentPositions (Num 5) 3 3 = [].
Proof. repeat split. Qed.

(** C9 as stated does not hold for every radius: a negative radius
    gives an empty array for a position in range. *)
Lemma negative_radius_window_empty :
  ~ (forall p total r : Z,
        1 <= p <= total ->
        getAdjacentPositions (Num p) total r <> []
        /\ consecutive (getAdjacentPositions (Num p) total r)
        /\ p ∈ getAdjacentPositions (Num p) total r).
Proof.
  intros H. destruct (H 2 3 (-1)) as [Hne _]; [lia |].
  apply Hne. reflexivity.
Qed.

(** C9, amended: for every position, total and radius with
    1 <= position <= total and radius >= 0, the returned array is
    non-empty, each element is the previous one plus one, and the
    position itself is among the elements. *)
Theorem getAdjacentPositions_contains_position (p total r : Z) :
  1 <= p <= total -> 0 <= r ->
  getAdjacentPositions (Num p) total r <> []
  /\ consecutive (getAdjacentPositions (Num p) total r)
  /\ p ∈ getAdjacentPositions (Num p) total r.
Proof.
  intros Hp Hr. rewrite getAdjacentPositions_in_range by done.
  pose proof (final_bounds_contains p total r Hp Hr) as Hb.
  simpl in *. set (b := final_bounds p total r) in *.
  assert (Hin : p ∈ seqZ (lower_bound b) (upper_bound b - lower_bound b + 1))
    by (apply elem_of_seqZ; lia).
  split; [| split; [| exact Hin]].
  - intros Hnil. rewrite Hnil in Hin. by apply not_elem_of_nil in Hin.
  - intros i x y Hx Hy.
    apply lookup_seqZ in Hx as [-> _]. apply lookup_seqZ in Hy as [-> _].
    lia.
Qed.

Lemma getAdjacentPositions_contains_position_witness :
  1 <= 1 <= 3 /\ 0 <= 2
  /\ getAdjacentPositions (Num 1) 3 2 <> []
  /\ consecutive (getAdjacentPositions (Num 1) 3 2)
  /\ 1 ∈ getAdjacentPositions (Num 1) 3 2.
Proof.
  split; [lia |]. split; [lia |].
  apply (getAdjacentPositions_contains_position 1 3 2); lia.
Defined.

End WindowClaims.

(** ** Pace comparison *)
Section Pace.
Import PaceComparison.

Variable truncateName : string -> string.
Variable toUpperCase : string -> string.

Lemma strict_neq_Null (v : value) : strict_neq v Null = true <-> v <> Null.
Proof. destruct v; cbn; split; intros H; done. Qed.

(** What the availability test reads: the keys ['last-ms'] and
    ['sector-1-ms'] to ['sector-3-ms'], each compared with [null]. *)
Lemma isDataAvailable_fields (d : pace_data) :
  isDataAvailable d = true <->
  last_ms d <> Null /\ sector_1_ms d <> Null
  /\ sector_2_ms d <> Null /\ sector_3_ms d <> Null.
Proof.
  unfold isDataAvailable. rewrite <- !strict_neq_Null.
  destruct (strict_neq (last_ms d) Null), (strict_neq (sector_1_ms d) Null),
    (strict_neq (sector_2_ms d) Null), (strict_neq (sector_3_ms d) Null);
    simpl; intuition congruence.
Qed.

Lemma slot_element_clear (sd : side) (s : slot) (w : widget) :
  slot_element sd s (clearNextData (clearPrevData w))
  = set_text placeholder <$> slot_element sd s w.
Proof.
  destruct sd, s; simpl; rewrite ?list_lookup_fmap; reflexivity.
Qed.

Lemma slot_element_fill_names (sd : side) (s : slot) (d : data) (w : widget) :
  slot_element sd s (fill_names truncateName toUpperCase d w)
  = slot_element sd s w.
Proof.
  unfold fill_names. repeat case_bool_decide; destruct sd, s; reflexivity.
Qed.

Lemma console_errors_fill_names (d : data) (w : widget) :
  console_errors (fill_names truncateName toUpperCase d w)
  = console_errors w.
Proof. unfold fill_names. repeat case_bool_decide; reflexivity. Qed.

(** The state of every slot after [update]: the delta of the slot's two
    times when the player and the neighbour both pass the availability
    test, the placeholder otherwise. *)
Lemma update_slot (sd : side) (s : slot) (d : data) (w : widget)
    (el : element) :
  slot_element sd s w = Some el ->
  slot_element sd s (update truncateName toUpperCase d w) =
    Some (if isDataAvailable (player d) && isDataAvailable (neighbor sd d)
          then show_delta (sub (slot_time s (player d))
                               (slot_time s (neighbor sd d)))
                          (set_text placeholder el)
          else set_text placeholder el).
Proof.
  intros Hel. unfold update.
  set (w0 := fill_names truncateName toUpperCase d
               (clearNextData (clearPrevData w))).
  assert (H0 : slot_element sd s w0 = Some (set_text placeholder el)).
  { unfold w0. rewrite slot_element_fill_names, slot_element_clear, Hel.
    reflexivity. }
  clearbody w0.
  destruct (isDataAvailable (player d)); simpl; [| exact H0].
  destruct sd, s; simpl in *;
    destruct (isDataAvailable (prev d)), (isDataAvailable (next d));
    simpl;
    try (injection H0 as ->; reflexivity);
    repeat (rewrite list_lookup_alter_ne by lia);
    rewrite ?list_lookup_alter_eq;
    repeat (rewrite list_lookup_alter_ne by lia);
    rewrite H0; reflexivity.
Qed.

(** The error console after [update]. *)
Lemma update_console (d : data) (w : widget) :
  console_errors (update truncateName toUpperCase d w) =
    if isDataAvailable (player d) && negb (isDataAvailable (prev d))
       && negb (isDataAvailable (next d))
    then console_errors w ++ [both_unavailable_msg]
    else console_errors w.
Proof.
  unfold update.
  destruct (isDataAvailable (player d)); simpl;
    [| by rewrite console_errors_fill_names].
  destruct (isDataAvailable (prev d)), (isDataAvailable (next d)); simpl;
    by rewrite console_errors_fill_names.
Qed.

(** The classes of an element after [updateElementDelta]. *)
Lemma updateElementDelta_classes (el : element) (z : Z) :
  let el' := updateElementDelta el (Num z) in
  ("text-danger" ∈ classList el' <-> 0 < z)
  /\ ("text-success" ∈ classList el' <-> z < 0).
Proof.
  unfold updateElementDelta, gt, lt, compare_with, classList_add. simpl.
  set (cl := filter _ (classList el)).
  assert (Hd : "text-danger" ∉ cl).
  { unfold cl. rewrite list_elem_of_filter. intros [Hn _]. apply Hn.
    rewrite !elem_of_cons. auto. }
  assert (Hs : "text-success" ∉ cl).
  { unfold cl. rewrite list_elem_of_filter. intros [Hn _]. apply Hn.
    rewrite !elem_of_cons. auto. }
  destruct (Z.gtb_spec z 0).
  - rewrite bool_decide_eq_false_2 by (simpl; exact Hd). simpl.
    rewrite !elem_of_app, !list_elem_of_singleton.
    split; split; intros; try lia; [by right | ].
    destruct H0 as [? | ?]; [done | discriminate].
  - destruct (Z.ltb_spec z 0).
    + rewrite bool_decide_eq_false_2 by (simpl; exact Hs). simpl.
      rewrite !elem_of_app, !list_elem_of_singleton.
      split; split; intros; try lia; [| by right].
      destruct H1 as [? | ?]; [done | discriminate].
    + simpl. fold cl. split; split; intros; try lia; done.
Qed.

(** Deltas as the overlay prints them; a delta of zero prints with a
    minus sign, and NaN prints as dashes. *)
Lemma formatDelta_examples :
  formatDelta (Num (-1200)) = "-1.200"
  /\ formatDelta (Num 61005) = "+61.005"
  /\ formatDelta (Num 0) = "-0.000"
  /\ formatDelta NaN = "--.-".
Proof. repeat split. Qed.

Lemma updateElementDelta_text (el : element) (v : value) :
  textContent (updateElementDelta el v) = textContent el.
Proof.
  unfold updateElementDelta, classList_add.
  repeat case_match; reflexivity.
Qed.

End Pace.

(** ** Claims about the pace comparison *)
Section PaceClaims.
Import PaceComparison.

(** C6 as stated does not hold: when every time of the player and of
    both neighbours is [null], neither neighbour has valid data, and yet
    [update] returns at the player test without logging anything. *)
Lemma both_neighbours_missing_not_always_logged :
  ~ (forall (d : data) (w : widget),
        ~ times_present (prev d) -> ~ times_present (next d) ->
        console_errors (update id id d w) <> console_errors w).
Proof.
  intros H.
  apply (H (Data untimed untimed untimed) blank_overlay);
    try (intros [Hl _]; by apply Hl).
  reflexivity.
Qed.

Lemma all_times_present_available (d : pace_data) :
  all_times_present d -> isDataAvailable d = true.
Proof.
  intros (Hlast & _ & H1 & H2 & H3). by apply isDataAvailable_fields.
Qed.

Lemma a_time_missing_unavailable (d : pace_data) :
  a_time_missing d -> isDataAvailable d = false.
Proof.
  intros Hmiss. destruct (isDataAvailable d) eqn:E; [| reflexivity].
  apply isDataAvailable_fields in E as (Hlast & H1 & H2 & H3).
  destruct Hmiss as [H | [H | [H | [H _]]]]; congruence.
Qed.

(** Where the two lap keys differ, the availability test and the lap
    delta look at different values: here the neighbour's ['lap-ms'] is
    [null] while its ['last-ms'] is not, and a lap delta is shown. *)
Lemma lap_delta_with_one_lap_key_null :
  let d := Data (timed "P" 90000 30000 30000 30000)
                (PaceData (Some "A") (Num 91200) Null
                          (Num 30400) (Num 30400) (Num 30400))
                untimed in
  prevDelta (update id id d blank_overlay)
  = Element "+90.000" ["text-danger"].
Proof. reflexivity. Qed.

(** C6, amended: for each neighbour and each of its four slots,
    - when every time of the player and of that neighbour is present
      (non-null), the slot shows the delta of the slot's two times;
    - when a time of the player or of that neighbour is missing (a
      sector time null, or the lap time null under both of its keys),
      the slot keeps the placeholder text and its classes, so a delta is
      rendered only when no time is missing;
    - when the player's times are all present and both neighbours have a
      missing time, the condition is logged once, and by the previous
      point no comparison is shown;
    - when the player has a missing time, or a neighbour has all its
      times, nothing is logged.
    Nothing is said of a lap time that is null under one of its two keys
    only. [update] is a total function of the data: no exception
    arises. *)
Theorem pace_update_slots_follow_availability
    (truncateName toUpperCase : string -> string)
    (sd : side) (s : slot) (d : data) (w : widget) (el : element) :
  slot_element sd s w = Some el ->
  let w' := update truncateName toUpperCase d w in
  (all_times_present (player d) /\ all_times_present (neighbor sd d) ->
     slot_element sd s w' =
       Some (show_delta (sub (slot_time s (player d))
                             (slot_time s (neighbor sd d)))
                        (set_text placeholder el)))
  /\ (a_time_missing (player d) \/ a_time_missing (neighbor sd d) ->
        slot_element sd s w' = Some (Element "---" (classList el)))
  /\ (all_times_present (player d) ->
      a_time_missing (prev d) -> a_time_missing (next d) ->
        console_errors w' = console_errors w ++ [both_unavailable_msg])
  /\ (a_time_missing (player d) \/ all_times_present (prev d)
      \/ all_times_present (next d) ->
        console_errors w' = console_errors w).
Proof.
  intros Hel w'. unfold w'.
  rewrite (update_slot truncateName toUpperCase sd s d w el Hel).
  rewrite update_console.
  split; [| split; [| split]].
  - intros [Hp Hn].
    by rewrite (all_times_present_available _ Hp),
               (all_times_present_available _ Hn).
  - intros [H | H]; rewrite (a_time_missing_unavailable _ H);
      [reflexivity | by rewrite andb_false_r].
  - intros Hp Hprev Hnext.
    by rewrite (all_times_present_available _ Hp),
               (a_time_missing_unavailable _ Hprev),
               (a_time_missing_unavailable _ Hnext).
  - intros [H | [H | H]].
    + by rewrite (a_time_missing_unavailable _ H).
    + rewrite (all_times_present_available _ H).
      by rewrite andb_false_r.
    + rewrite (all_times_present_available _ H).
      by rewrite andb_false_r.
Qed.

Lemma pace_update_slots_follow_availability_witness :
  let d := Data (timed "P" 90000 30000 30000 30000)
                (timed "A" 91200 30400 30400 30400) untimed in
  slot_element Prev Lap blank_overlay = Some fresh
  /\ slot_element Prev Lap (update id id d blank_overlay)
       = Some (Element "-1.200" ["text-success"])
  /\ slot_element Next Lap (update id id d blank_overlay)
       = Some (Element "---" [])
  /\ console_errors (update id id d blank_overlay) = [].
Proof.
  intros d.
  assert (Hp : all_times_present (player d))
    by (repeat split; discriminate).
  assert (Ha : all_times_present (prev d))
    by (repeat split; discriminate).
  assert (Hn : a_time_missing (next d)) by (left; reflexivity).
  destruct (pace_update_slots_follow_availability
              id id Prev Lap d blank_overlay fresh eq_refl)
    as (Hshow & _ & _ & Hquiet).
  destruct (pace_update_slots_follow_availability
              id id Next Lap d blank_overlay fresh eq_refl)
    as (_ & Hkeep & _ & _).
  split; [reflexivity |].
  split; [exact (Hshow (conj Hp Ha)) |].
  split; [apply Hkeep; right; exact Hn |].
  apply Hquiet. right. left. exact Ha.
Defined.

(** C7: every pace delta shown by [update] is the player's time minus
    the neighbour's time, and the element's class follows its sign:
    text-danger (slower) exactly when the delta is positive,
    text-success (faster) exactly when it is negative, neither (neutral)
    when it is zero. With a player lap of 90000 ms against a neighbour
    lap of 91200 ms the delta is -1200 and the class is faster. *)
Theorem pace_delta_sign_classification
    (truncateName toUpperCase : string -> string)
    (sd : side) (s : slot) (d : data) (w : widget) (el : element)
    (p n : Z) :
  times_present (player d) -> times_present (neighbor sd d) ->
  slot_time s (player d) = Num p ->
  slot_time s (neighbor sd d) = Num n ->
  slot_element sd s w = Some el ->
  exists el',
    slot_element sd s (update truncateName toUpperCase d w) = Some el'
    /\ el' = show_delta (Num (p - n)) (set_text placeholder el)
    /\ textContent el' = formatDelta (Num (p - n))
    /\ ("text-danger" ∈ classList el' <-> 0 < p - n)
    /\ ("text-success" ∈ classList el' <-> p - n < 0)
    /\ classify_pace el' = sign_class (p - n).
Proof.
  intros Hp Hn Htp Htn Hel.
  apply isDataAvailable_fields in Hp, Hn.
  eexists. split.
  { rewrite (update_slot truncateName toUpperCase sd s d w el Hel).
    rewrite Hp, Hn, Htp, Htn. simpl. reflexivity. }
  split; [reflexivity |].
  unfold show_delta.
  pose proof (updateElementDelta_classes
                (set_text (formatDelta (Num (p - n)))
                          (set_text placeholder el)) (p - n)) as [Hd Hs].
  simpl in Hd, Hs.
  split; [by rewrite updateElementDelta_text |].
  split; [exact Hd |]. split; [exact Hs |].
  unfold classify_pace, sign_class.
  destruct (Z.ltb_spec 0 (p - n)) as [Hpos | Hnpos].
  - rewrite bool_decide_eq_true_2 by (apply Hd; lia). reflexivity.
  - rewrite bool_decide_eq_false_2 by (rewrite Hd; lia).
    destruct (Z.ltb_spec (p - n) 0) as [Hneg | Hnneg].
    + rewrite bool_decide_eq_true_2 by (apply Hs; lia). reflexivity.
    + rewrite bool_decide_eq_false_2 by (rewrite Hs; lia). reflexivity.
Qed.

Lemma pace_delta_sign_classification_witness :
  let d := Data (timed "P" 90000 30000 30000 30000)
                (timed "A" 91200 30400 30400 30400) untimed in
  times_present (player d) /\ times_present (prev d)
  /\ lap_delta (player d) (prev d) = Num (-1200)
  /\ exists el',
       prevDelta (update id id d blank_overlay) = el'
       /\ textContent el' = "-1.200"
       /\ classify_pace el' = Faster.
Proof.
  intros d.
  assert (Hp : times_present (player d)) by (repeat split; discriminate).
  assert (Ha : times_present (neighbor Prev d))
    by (repeat split; discriminate).
  destruct (pace_delta_sign_classification
              id id Prev Lap d blank_overlay fresh 90000 91200
              Hp Ha eq_refl eq_refl eq_refl)
    as (el' & Hslot & _ & Htext & _ & _ & Hclass).
  split; [exact Hp |]. split; [exact Ha |]. split; [reflexivity |].
  exists el'. split; [by injection Hslot |].
  split; [exact Htext | exact Hclass].
Defined.

End PaceClaims.

(** ** Lap-time table *)
Section LapTimes.
Import LapTimeTableWidget.

Lemma classList_add_text (tok : string) (el : element) :
  textContent (classList_add tok el) = textContent el.
Proof. unfold classList_add. case_bool_decide; reflexivity. Qed.

Lemma applyColourToCell_text (cell : element) (lapNum : Z)
    (time globalBest pb : value) (isValid : Z) (typeStr : string) :
  textContent (applyColourToCell cell lapNum time globalBest pb
                                 isValid typeStr)
  = textContent cell.
Proof.
  unfold applyColourToCell.
  repeat case_match; rewrite ?classList_add_text; reflexivity.
Qed.

(** The two guards of [applyColourToCell], read as rules. *)
Lemma fastest_guard (time globalBest : value) :
  truthy globalBest && strict_eq time globalBest
  = is_fastest_overall time globalBest.
Proof.
  destruct time as [ | | | t], globalBest as [ | | | b]; simpl;
    try reflexivity; try apply andb_false_r.
  apply andb_comm.
Qed.

Lemma personal_best_guard (lapNum : Z) (pb : value) :
  truthy pb && strict_eq (Num lapNum) pb = is_personal_best lapNum pb.
Proof.
  destruct pb as [ | | | k]; simpl; try reflexivity.
  rewrite (Z.eqb_sym lapNum k). apply andb_comm.
Qed.

(** The colour of a newly inserted cell. *)
Lemma applyColourToCell_colour (txt : string) (lapNum : Z)
    (time globalBest pb : value) (isValid : Z) (typeStr : string) :
  colour_of (applyColourToCell (set_text txt fresh) lapNum time
                               globalBest pb isValid typeStr)
  = first_matching_rule (is_fastest_overall time globalBest)
                        (is_personal_best lapNum pb)
                        (isValid =? 0).
Proof.
  unfold applyColourToCell.
  rewrite fastest_guard, personal_best_guard. simpl.
  destruct (is_fastest_overall time globalBest); [reflexivity |].
  destruct (is_personal_best lapNum pb); [reflexivity |].
  destruct (isValid =? 0); reflexivity.
Qed.

(** The classes of a newly inserted cell: those of the first rule that
    matches, and nothing else. *)
Lemma applyColourToCell_classes (txt : string) (lapNum : Z)
    (time globalBest pb : value) (isValid : Z) (typeStr : string) :
  classList (applyColourToCell (set_text txt fresh) lapNum time
                               globalBest pb isValid typeStr)
  = colour_classes
      (first_matching_rule (is_fastest_overall time globalBest)
                           (is_personal_best lapNum pb)
                           (isValid =? 0)).
Proof.
  unfold applyColourToCell.
  rewrite fastest_guard, personal_best_guard. simpl.
  destruct (is_fastest_overall time globalBest); [reflexivity |].
  destruct (is_personal_best lapNum pb); [reflexivity |].
  destruct (isValid =? 0); reflexivity.
Qed.

(** Every row of the loop comes from an entry of the history, at the
    index one below its lap number. *)
Lemma update_loop_rows (h : lap_time_history) (n : nat) :
  forall (i : Z) (r : row),
    r ∈ update_loop h i n ->
    exists (j : Z) (lapData : lap_data),
      0 <= j /\ lap_time_history_data h !! Z.to_nat j = Some lapData
      /\ r = render_row h j lapData.
Proof.
  induction n as [ | n IH]; intros i r Hr; simpl in Hr.
  - by apply not_elem_of_nil in Hr.
  - destruct (Z.geb_spec i 0) as [Hi | Hi];
      [| by apply not_elem_of_nil in Hr].
    destruct (lap_time_history_data h !! Z.to_nat i) as [ld | ] eqn:Hld;
      [| by apply not_elem_of_nil in Hr].
    apply elem_of_cons in Hr as [-> | Hr].
    + exists i, ld. split; [lia | done].
    + by apply (IH (i - 1)).
Qed.

(** The loop never runs past the history: it inserts one row for each
    of the [remaining] most recent entries. *)
Lemma update_loop_length (h : lap_time_history) (n : nat) :
  forall i : Z,
    -1 <= i < Z.of_nat (length (lap_time_history_data h)) ->
    length (update_loop h i n) = Nat.min n (Z.to_nat (i + 1)).
Proof.
  induction n as [ | n IH]; intros i Hi; simpl; [reflexivity |].
  destruct (Z.geb_spec i 0) as [Hge | Hlt].
  - destruct (lookup_lt_is_Some_2 (lap_time_history_data h) (Z.to_nat i))
      as [ld Hld]; [lia |].
    rewrite Hld. simpl. rewrite IH by lia.
    replace (Z.to_nat (i + 1)) with (S (Z.to_nat (i - 1 + 1))) by lia.
    reflexivity.
  - replace (Z.to_nat (i + 1)) with 0%nat by lia. reflexivity.
Qed.

Lemma update_length (h : lap_time_history) :
  length (update (Some h))
  = Nat.min numRows (length (lap_time_history_data h)).
Proof.
  unfold update. rewrite update_loop_length by lia. f_equal. lia.
Qed.

Lemma update_rows (h : lap_time_history) (r : row) :
  r ∈ update (Some h) ->
  exists lapData : lap_data,
    lap_time_history_data h !! Z.to_nat (lapNumCell r - 1) = Some lapData
    /\ r = render_row h (lapNumCell r - 1) lapData.
Proof.
  intros Hr. apply update_loop_rows in Hr as (j & ld & Hj & Hld & ->).
  exists ld. simpl. replace (j + 1 - 1) with j by lia. done.
Qed.

End LapTimes.

(** ** Claims about the lap-time table *)
Section LapTimeClaims.
Import LapTimeTableWidget.

Lemma strict_eq_zero (v : value) :
  strict_eq v (Num 0) = true <-> v = Num 0.
Proof.
  destruct v as [ | | | z]; simpl; split; intros H; try done.
  - f_equal. lia.
  - injection H as ->. reflexivity.
Qed.

Lemma getValidTimeStr_zero (timeStr : string) :
  getValidTimeStr (Num 0) timeStr = "---".
Proof. reflexivity. Qed.

Lemma getValidTimeStr_other (timeMs : value) (timeStr : string) :
  timeMs <> Num 0 -> getValidTimeStr timeMs timeStr = timeStr.
Proof.
  intros H. unfold getValidTimeStr.
  destruct (strict_eq timeMs (Num 0)) eqn:E; [| reflexivity].
  by apply strict_eq_zero in E.
Qed.

(** C8 as stated does not hold: while nobody has set a lap the global
    best is 0, and a lap time equal to it (also 0) on the driver's
    personal-best lap does not get the class of the fastest lap overall:
    the cell carries text-success alone. *)
Lemma zero_global_best_not_fastest_overall :
  ~ (forall (h : lap_time_history) (r : row) (lapData : lap_data),
        r ∈ update (Some h) ->
        lap_time_history_data h !! Z.to_nat (lapNumCell r - 1)
          = Some lapData ->
        lap_time_in_ms lapData = global_fastest_lap_ms h ->
        fastest_lap_number h = Num (lapNumCell r) ->
        "text-purple" ∈ classList (lapTimeCell r)).
Proof.
  intros H.
  specialize (H first_lap_running
                (render_row first_lap_running 0 (lap 0 0 0 0 "0:00.000" 15))
                (lap 0 0 0 0 "0:00.000" 15)).
  assert (Hc : classList
                 (lapTimeCell
                    (render_row first_lap_running 0
                                (lap 0 0 0 0 "0:00.000" 15)))
               = ["text-success"]) by reflexivity.
  rewrite Hc in H.
  assert (Hin : "text-purple" ∈ ["text-success"]).
  { apply H; [apply list_elem_of_here | reflexivity..]. }
  apply list_elem_of_singleton in Hin. discriminate Hin.
Qed.

(** C8, amended: every cell of every row that [update] inserts carries
    exactly the class of the first rule that matches, in the order
    fastest overall (text-purple) > personal best for that lap
    (text-success) > flagged invalid (text-danger) > default (no class),
    and no class of a later rule; the global best (and likewise the
    personal-best lap number) counts only when it is set, that is a
    number other than 0. In particular a lap time equal to a non-zero
    global fastest lap time carries text-purple alone, whatever the
    driver's personal-best lap is, so also on that very lap. *)
Theorem lap_cell_colour_first_match (h : lap_time_history) (r : row) :
  r ∈ update (Some h) ->
  exists lapData : lap_data,
    lap_time_history_data h !! Z.to_nat (lapNumCell r - 1) = Some lapData
    /\ classList (lapTimeCell r) =
         colour_classes
           (first_matching_rule
              (is_fastest_overall (lap_time_in_ms lapData)
                                  (global_fastest_lap_ms h))
              (is_personal_best (lapNumCell r) (fastest_lap_number h))
              (is_flagged_invalid (lap_valid_bit_flags lapData) 1))
    /\ classList (s1TimeCell r) =
         colour_classes
           (first_matching_rule
              (is_fastest_overall (sector_1_time_in_ms lapData)
                                  (global_fastest_s1_ms h))
              (is_personal_best (lapNumCell r) (fastest_s1_lap_number h))
              (is_flagged_invalid (lap_valid_bit_flags lapData) 2))
    /\ classList (s2TimeCell r) =
         colour_classes
           (first_matching_rule
              (is_fastest_overall (sector_2_time_in_ms lapData)
                                  (global_fastest_s2_ms h))
              (is_personal_best (lapNumCell r) (fastest_s2_lap_number h))
              (is_flagged_invalid (lap_valid_bit_flags lapData) 4))
    /\ classList (s3TimeCell r) =
         colour_classes
           (first_matching_rule
              (is_fastest_overall (sector_3_time_in_ms lapData)
                                  (global_fastest_s3_ms h))
              (is_personal_best (lapNumCell r) (fastest_s3_lap_number h))
              (is_flagged_invalid (lap_valid_bit_flags lapData) 8))
    /\ (forall t : Z,
          t <> 0 ->
          lap_time_in_ms lapData = Num t ->
          global_fastest_lap_ms h = Num t ->
          classList (lapTimeCell r) = ["text-purple"]).
Proof.
  intros Hr. destruct (update_rows h r Hr) as (ld & Hld & Hrow).
  exists ld. split; [exact Hld |].
  set (j := lapNumCell r - 1) in *.
  assert (Hnum : lapNumCell r = j + 1) by (unfold j; lia).
  rewrite Hnum. rewrite Hrow. unfold render_row. simpl.
  rewrite !applyColourToCell_classes.
  repeat (split; [reflexivity |]).
  intros t Ht -> ->. simpl.
  rewrite Z.eqb_refl. simpl.
  destruct (Z.eqb_spec t 0); [done | reflexivity].
Qed.

Lemma lap_cell_colour_first_match_witness :
  let r := render_row three_laps 0
             (lap 90000 29500 30000 30500 "1:30.000" 15) in
  r ∈ update (Some three_laps)
  /\ fastest_lap_number three_laps = Num (lapNumCell r)
  /\ classList (lapTimeCell r) = ["text-purple"]
  /\ classList (s1TimeCell r) = [].
Proof.
  intros r.
  assert (Hr : r ∈ update (Some three_laps)).
  { apply list_elem_of_further, list_elem_of_further, list_elem_of_here. }
  destruct (lap_cell_colour_first_match three_laps r Hr)
    as (ld & Hld & _ & Hs1 & _ & _ & Hfast).
  injection Hld as <-.
  split; [exact Hr |]. split; [reflexivity |].
  split; [| exact Hs1].
  apply (Hfast 90000); [lia | reflexivity | reflexivity].
Defined.

(** C10: in every row that [update] inserts, a lap time or a sector
    time of 0 ms is shown as the placeholder "---"; any other value is
    shown as the entry's formatted time string. *)
Theorem zero_time_shows_placeholder (h : lap_time_history) (r : row) :
  r ∈ update (Some h) ->
  exists lapData : lap_data,
    lap_time_history_data h !! Z.to_nat (lapNumCell r - 1) = Some lapData
    /\ (lap_time_in_ms lapData = Num 0 ->
        textContent (lapTimeCell r) = "---")
    /\ (sector_1_time_in_ms lapData = Num 0 ->
        textContent (s1TimeCell r) = "---")
    /\ (sector_2_time_in_ms lapData = Num 0 ->
        textContent (s2TimeCell r) = "---")
    /\ (sector_3_time_in_ms lapData = Num 0 ->
        textContent (s3TimeCell r) = "---")
    /\ (lap_time_in_ms lapData <> Num 0 ->
        textContent (lapTimeCell r) = lap_time_str lapData)
    /\ (sector_1_time_in_ms lapData <> Num 0 ->
        textContent (s1TimeCell r) = sector_1_time_str lapData)
    /\ (sector_2_time_in_ms lapData <> Num 0 ->
        textContent (s2TimeCell r) = sector_2_time_str lapData)
    /\ (sector_3_time_in_ms lapData <> Num 0 ->
        textContent (s3TimeCell r) = sector_3_time_str lapData).
Proof.
  intros Hr. destruct (update_rows h r Hr) as (ld & Hld & Hrow).
  exists ld. split; [exact Hld |].
  rewrite Hrow. unfold render_row. simpl.
  rewrite !applyColourToCell_text. simpl.
  repeat split; intros H;
    solve [ rewrite H; apply getValidTimeStr_zero
          | by apply getValidTimeStr_other ].
Qed.

Lemma zero_time_shows_placeholder_witness :
  let r := render_row three_laps 2 (lap 0 29800 0 0 "0:00.000" 15) in
  r ∈ update (Some three_laps)
  /\ textContent (lapTimeCell r) = "---"
  /\ textContent (s1TimeCell r) = "s1"
  /\ textContent (s2TimeCell r) = "---".
Proof.
  intros r.
  assert (Hr : r ∈ update (Some three_laps)) by apply list_elem_of_here.
  destruct (zero_time_shows_placeholder three_laps r Hr)
    as (ld & Hld & Hlap & _ & Hs2 & _ & _ & Hs1 & _).
  injection Hld as <-.
  split; [exact Hr |].
  split; [exact (Hlap eq_refl) |].
  split; [apply Hs1; discriminate | exact (Hs2 eq_refl)].
Defined.

End LapTimeClaims.

(** ** Further properties of the visible rows *)
Section VisibleRows.
Import TelemetryRenderer.

(** [getPlayerPosition] stops at the first entry flagged as the player:
    entries after it, flagged or not, are never looked at. *)
Theorem getPlayerPosition_first_player
    (before after : list table_entry) (e : table_entry)
    (spectating ended : bool) :
  Forall (fun x => is_player (entry_driver_info x) = false) before ->
  is_player (entry_driver_info e) = true ->
  getPlayerPosition (Snapshot (before ++ e :: after) spectating ended)
  = position (entry_driver_info e).
Proof.
  intros Hbefore He. unfold getPlayerPosition. simpl.
  induction Hbefore as [ | x before Hx _ IH]; simpl.
  - by rewrite He.
  - by rewrite Hx.
Qed.

Lemma getPlayerPosition_first_player_witness :
  Forall (fun x => is_player (entry_driver_info x) = false)
         [car false 1 "A"]
  /\ is_player (entry_driver_info (car true 2 "B")) = true
  /\ getPlayerPosition
       (Snapshot [car false 1 "A"; car true 2 "B"; car true 3 "C"]
                 false false)
     = Num 2.
Proof.
  assert (H : Forall (fun x => is_player (entry_driver_info x) = false)
                     [car false 1 "A"]) by (repeat constructor).
  split; [exact H |]. split; [reflexivity |].
  exact (getPlayerPosition_first_player
           [car false 1 "A"] [car true 3 "C"] (car true 2 "B")
           false false H eq_refl).
Defined.

(** [slice] always returns a contiguous stretch of the array. *)
Lemma slice_contiguous {A} (l : list A) (start end_ : value) :
  exists before after, l = before ++ slice l start end_ ++ after.
Proof.
  unfold slice.
  set (k := Z.to_nat _). set (n := Z.to_nat _).
  exists (take n l), (drop k (drop n l)).
  by rewrite take_drop, take_drop.
Qed.

(** [slice] between two indices inside the array. *)
Lemma slice_inside {A} (l : list A) (a b : Z) :
  0 <= a <= b -> b <= Z.of_nat (length l) ->
  slice l (Num a) (Num b) = take (Z.to_nat (b - a)) (drop (Z.to_nat a) l).
Proof.
  intros Ha Hb. unfold slice, relative_index. cbn [to_integer to_number].
  rewrite !(proj2 (Z.ltb_ge _ _)) by lia.
  rewrite !Z.min_l, Z.max_l by lia. reflexivity.
Qed.

(** [slice] from a negative start to the end of the array. *)
Lemma slice_from_end {A} (l : list A) (a : Z) :
  a < 0 -> 0 <= Z.of_nat (length l) + a ->
  slice l (Num a) (Num (Z.of_nat (length l)))
  = drop (Z.to_nat (Z.of_nat (length l) + a)) l.
Proof.
  intros Ha Hb. unfold slice, relative_index. cbn [to_integer to_number].
  rewrite (proj2 (Z.ltb_lt a 0)) by lia.
  rewrite (proj2 (Z.ltb_ge (Z.of_nat (length l)) 0)) by lia.
  rewrite Z.min_id, !Z.max_l by lia.
  apply take_ge. rewrite length_drop. lia.
Qed.

(** With a player inside the table, the rows are the slice between the
    final bounds of the window. *)
Lemma getRelevantRaceTableRows_in_range (r p : Z) (data : snapshot) :
  is_spectating data = false -> race_ended data = false ->
  getPlayerPosition data = Num p ->
  1 <= p <= Z.of_nat (length (table_entries data)) -> 0 <= r ->
  getRelevantRaceTableRows r data =
    let b := final_bounds p (Z.of_nat (length (table_entries data))) r in
    slice (table_entries data) (Num (lower_bound b - 1)) (Num (upper_bound b)).
Proof.
  intros Hs He Hp Hin Hr. unfold getRelevantRaceTableRows.
  rewrite (proj2 (Z.eqb_neq _ _)) by lia.
  rewrite Hs, He, Hp. cbn [orb].
  rewrite getAdjacentPositions_in_range by done.
  pose proof (final_bounds_contains _ _ r Hin Hr) as Hb.
  cbn zeta in *.
  set (b := final_bounds p (Z.of_nat (length (table_entries data))) r) in *.
  rewrite length_seqZ.
  unfold array_get.
  rewrite !(proj2 (Z.ltb_ge _ _)) by lia.
  rewrite !lookup_seqZ_lt by lia.
  cbn [sub to_number]. f_equal; f_equal; lia.
Qed.

(** Whatever the snapshot and the radius, the rows come out as one
    contiguous stretch of the table, in table order: nothing is
    reordered, repeated or invented. *)
Theorem getRelevantRaceTableRows_contiguous (r : Z) (data : snapshot) :
  exists before after,
    table_entries data = before ++ getRelevantRaceTableRows r data ++ after.
Proof.
  unfold getRelevantRaceTableRows.
  destruct (Z.eqb_spec (Z.of_nat (length (table_entries data))) 0) as [H0 | _].
  - exists [], []. destruct (table_entries data); [reflexivity | simpl in H0; lia].
  - destruct (is_spectating data || race_ended data).
    + exists [], []. by rewrite app_nil_r.
    + apply slice_contiguous.
Qed.

(** When the table is at least [2 * radius + 1] long (or no longer than
    the radius), live and with the player at position [p]: exactly
    min(2 * radius + 1, N) rows are shown, they are the stretch of the
    table that starts at some position [lo <= p], and the row at the
    player's position is one of them. *)
Theorem getRelevantRaceTableRows_window (r p : Z) (data : snapshot) :
  is_spectating data = false -> race_ended data = false ->
  getPlayerPosition data = Num p ->
  1 <= p <= Z.of_nat (length (table_entries data)) -> 0 <= r ->
  r >= Z.of_nat (length (table_entries data))
  \/ 2 * r + 1 <= Z.of_nat (length (table_entries data)) ->
  let width := Z.min (2 * r + 1) (Z.of_nat (length (table_entries data))) in
  exists lo : Z,
    1 <= lo <= p /\ p < lo + width
    /\ getRelevantRaceTableRows r data
       = take (Z.to_nat width) (drop (Z.to_nat (lo - 1)) (table_entries data))
    /\ length (getRelevantRaceTableRows r data) = Z.to_nat width
    /\ forall e, table_entries data !! Z.to_nat (p - 1) = Some e ->
                 e ∈ getRelevantRaceTableRows r data.
Proof.
  intros Hs He Hp Hin Hr Hw width.
  rewrite (getRelevantRaceTableRows_in_range r p data) by done.
  pose proof (final_bounds_wide _ _ r Hin Hr Hw) as (Hlo & Hle & Hhi & Hwd).
  pose proof (final_bounds_contains _ _ r Hin Hr) as Hb.
  cbn zeta in *.
  set (b := final_bounds p (Z.of_nat (length (table_entries data))) r) in *.
  fold width in Hwd.
  exists (lower_bound b).
  rewrite slice_inside by lia.
  replace (upper_bound b - (lower_bound b - 1)) with width by lia.
  split; [lia |]. split; [lia |]. split; [reflexivity |].
  split.
  - rewrite length_take, length_drop. lia.
  - intros e Hlook. apply list_elem_of_lookup.
    exists (Z.to_nat (p - lower_bound b)).
    rewrite lookup_take_lt by lia. rewrite lookup_drop.
    rewrite <- Hlook. f_equal. lia.
Qed.

Lemma getRelevantRaceTableRows_window_witness :
  getPlayerPosition five_grid = Num 3
  /\ getRelevantRaceTableRows 1 five_grid
     = [car false 2 "B"; car true 3 "C"; car false 4 "D"]
  /\ car true 3 "C" ∈ getRelevantRaceTableRows 1 five_grid.
Proof.
  destruct (getRelevantRaceTableRows_window 1 3 five_grid
              eq_refl eq_refl eq_refl)
    as (lo & _ & _ & _ & _ & Hin); [simpl; lia | lia | simpl; lia |].
  split; [reflexivity |]. split; [reflexivity |].
  exact (Hin (car true 3 "C") eq_refl).
Defined.

(** When the table is longer than the radius but shorter than
    [2 * radius + 1], live and with the player anywhere in the table, the
    rows shown are the last [2 * radius + 1 - N] rows of the table,
    whatever the player's position: the first [2 * (N - radius) - 1] rows
    are cut. *)
Theorem getRelevantRaceTableRows_short_table (r p : Z) (data : snapshot) :
  is_spectating data = false -> race_ended data = false ->
  getPlayerPosition data = Num p ->
  1 <= p <= Z.of_nat (length (table_entries data)) ->
  r < Z.of_nat (length (table_entries data)) < 2 * r + 1 ->
  getRelevantRaceTableRows r data
  = drop (Z.to_nat (2 * (Z.of_nat (length (table_entries data)) - r) - 1))
         (table_entries data).
Proof.
  intros Hs He Hp Hin Hw.
  rewrite (getRelevantRaceTableRows_in_range r p data) by (done || lia).
  destruct (final_bounds_narrow _ _ r Hin Hw) as [-> _].
  cbn [lower_bound upper_bound].
  rewrite slice_from_end by lia. f_equal. lia.
Qed.

Lemma getRelevantRaceTableRows_short_table_witness :
  getPlayerPosition small_grid = Num 1
  /\ getRelevantRaceTableRows 2 small_grid
     = [car false 2 "B"; car false 3 "C"].
Proof.
  split; [reflexivity |].
  exact (getRelevantRaceTableRows_short_table 2 1 small_grid
           eq_refl eq_refl eq_refl
           ltac:(simpl; lia) ltac:(simpl; lia)).
Defined.

End VisibleRows.

(** ** The page chrome of the race table *)
Section RaceTableChrome.
Import TelemetryRendererDom.

Lemma starts_with_spec (t s : string) :
  starts_with t s = true <-> exists rest, s = t +:+ rest.
Proof.
  revert s. induction t as [ | a t IH]; intros s; simpl.
  - split; [intros _; by exists s | done].
  - destruct s as [ | b s].
    + split; [done | intros [rest H]; discriminate H].
    + case_bool_decide as Hab.
      * subst b. rewrite IH. split; intros [rest H]; exists rest.
        -- by rewrite H.
        -- by injection H.
      * split; [done | intros [rest H]; injection H; congruence].
Qed.

(** [includes] finds exactly the substrings. *)
Lemma includes_spec (s t : string) :
  includes s t = true <-> exists before rest, s = before +:+ t +:+ rest.
Proof.
  induction s as [ | c s IH]; simpl.
  - rewrite orb_false_r, starts_with_spec. split.
    + intros [rest H]. by exists "", rest.
    + intros (before & rest & H). destruct before; [| discriminate H].
      by exists rest.
  - rewrite orb_true_iff, starts_with_spec, IH. split.
    + intros [[rest H] | (before & rest & H)].
      * by exists "", rest.
      * exists (String c before), rest. simpl. by rewrite H.
    + intros (before & rest & H). destruct before as [ | c' before].
      * left. by exists rest.
      * right. injection H as _ H. by exists before, rest.
Qed.

(** The lap counter is hidden exactly for the session types whose name
    contains "Qualifying", "Practice" or "Sprint Shootout" somewhere
    (so also for "Short Qualifying" or "Practice 2"); every other
    session type shows it. *)
Theorem shouldShowLapNumber_hidden_iff (sessionType : string) :
  shouldShowLapNumber sessionType = false <->
  exists type before rest,
    type ∈ unsupportedSessionTypes
    /\ sessionType = before +:+ type +:+ rest.
Proof.
  unfold shouldShowLapNumber. rewrite negb_false_iff, existsb_exists.
  split.
  - intros (type & Hin & Hinc). apply includes_spec in Hinc
      as (before & rest & H).
    exists type, before, rest. split; [by apply list_elem_of_In | done].
  - intros (type & before & rest & Hin & H). exists type.
    split; [by apply list_elem_of_In |].
    apply includes_spec. by exists before, rest.
Qed.

Lemma find_column_absent (c : string) (hs : list header) (i : nat) :
  Forall (fun h => header_text h <> c) hs -> find_column c hs i = None.
Proof.
  intros H. revert i. induction H as [ | h hs Hh _ IH]; intros i; simpl.
  - reflexivity.
  - rewrite bool_decide_eq_false_2 by done. apply IH.
Qed.

Lemma find_column_first (c : string) (hs : list header) (i j : nat) :
  first_header_named c j hs -> find_column c hs i = Some (i + j)%nat.
Proof.
  revert i j. induction hs as [ | h hs IH]; intros i j [(h' & Hj & Hc) Hfirst].
  - by rewrite lookup_nil in Hj.
  - simpl. destruct j as [ | j].
    + injection Hj as ->. rewrite bool_decide_eq_true_2 by done.
      f_equal. lia.
    + rewrite bool_decide_eq_false_2 by (apply (Hfirst 0%nat); [lia | done]).
      rewrite (IH (S i) j); [f_equal; lia |].
      split; [by exists h' |].
      intros k hk Hk Hlook. apply (Hfirst (S k)); [lia | done].
Qed.

(** Setting a display never changes which column a name finds. *)
Lemma find_column_alter (c d : string) (hs : list header) (i j : nat) :
  find_column c (alter (set_header_display d) j hs) i = find_column c hs i.
Proof.
  revert i j. induction hs as [ | h hs IH]; intros i j; [reflexivity |].
  destruct j as [ | j]; simpl.
  - reflexivity.
  - change (list_alter (set_header_display d) j hs)
      with (alter (set_header_display d) j hs).
    by rewrite IH.
Qed.

Lemma set_cell_display_twice (j : nat) (d1 d2 : string) (cells : list string) :
  set_cell_display j d2 (set_cell_display j d1 cells)
  = set_cell_display j d2 cells.
Proof.
  unfold set_cell_display.
  destruct (decide (j < length cells)%nat) as [Hj | Hj].
  - rewrite (bool_decide_eq_true_2 _ Hj), length_insert.
    rewrite (bool_decide_eq_true_2 _ Hj). apply list_insert_insert_eq.
  - by rewrite !(bool_decide_eq_false_2 _ Hj).
Qed.

(** A column name that no header carries: the table is left as it is. *)
Theorem hideColumn_absent_column
    (columnName : string) (shouldHide : bool) (t : race_table) :
  Forall (fun h => header_text h <> columnName) (headers t) ->
  hideColumn columnName shouldHide t = t.
Proof.
  intros H. unfold hideColumn. by rewrite find_column_absent.
Qed.

Lemma hideColumn_absent_column_witness :
  Forall (fun h => header_text h <> "ERS") (headers sample_table)
  /\ hideColumn "ERS" true sample_table = sample_table.
Proof.
  assert (H : Forall (fun h => header_text h <> "ERS") (headers sample_table))
    by (repeat constructor; discriminate).
  split; [exact H |].
  exact (hideColumn_absent_column "ERS" true sample_table H).
Defined.

(** Of two calls for the same column the later one decides: in
    particular hiding twice is hiding once, and showing after hiding
    leaves the table as if it had only been shown. *)
Theorem hideColumn_last_call_wins
    (columnName : string) (first second : bool) (t : race_table) :
  hideColumn columnName second (hideColumn columnName first t)
  = hideColumn columnName second t.
Proof.
  unfold hideColumn at 2.
  destruct (find_column columnName (headers t) 0) as [j | ] eqn:Hfind;
    [| reflexivity].
  unfold hideColumn. cbn [headers rows].
  rewrite find_column_alter, Hfind. f_equal.
  - rewrite list_alter_alter_eq. by apply list_alter_ext.
  - destruct (rows t) as [ | first_row rest]; [reflexivity |].
    f_equal. rewrite <- list_fmap_compose. apply list_fmap_ext.
    intros i cells _. apply set_cell_display_twice.
Qed.

(** The effect of [hideColumn] on a table that has the column. *)
Lemma hideColumn_effect
    (columnName : string) (shouldHide : bool) (t : race_table) (j : nat) :
  first_header_named columnName j (headers t) ->
  let d := if shouldHide then "none" else "" in
  let t' := hideColumn columnName shouldHide t in
  header_display <$> headers t' !! j = Some d
  /\ header_text <$> headers t' = header_text <$> headers t
  /\ (forall k, k <> j -> headers t' !! k = headers t !! k)
  /\ rows t' !! 0%nat = rows t !! 0%nat
  /\ length <$> rows t' = length <$> rows t
  /\ forall i cells,
       rows t !! S i = Some cells ->
       exists cells',
         rows t' !! S i = Some cells'
         /\ (forall k, k <> j -> cells' !! k = cells !! k)
         /\ ((j < length cells)%nat -> cells' !! j = Some d).
Proof.
  intros Hfirst d t'. unfold t', hideColumn.
  rewrite (find_column_first columnName (headers t) 0 j Hfirst).
  cbn [headers rows Nat.add]. fold d.
  destruct Hfirst as [(h & Hj & Hc) _].
  split; [by rewrite list_lookup_alter_eq, Hj |].
  split.
  { apply list_eq. intros k. rewrite !list_lookup_fmap.
    destruct (decide (k = j)) as [-> | Hk].
    - rewrite list_lookup_alter_eq. by destruct (headers t !! j).
    - by rewrite list_lookup_alter_ne. }
  split; [intros k Hk; by apply list_lookup_alter_ne |].
  destruct (rows t) as [ | first_row rest]; [by repeat split |].
  split; [reflexivity |].
  split.
  { cbn [fmap list_fmap]. f_equal. rewrite <- list_fmap_compose.
    apply list_fmap_ext. intros i cells _. simpl.
    unfold set_cell_display. case_bool_decide; [apply length_insert | done]. }
  intros i cells Hcells. simpl in Hcells |- *.
  exists (set_cell_display j d cells).
  split; [by rewrite list_lookup_fmap, Hcells |].
  unfold set_cell_display. case_bool_decide as Hlen.
  - split; [intros k Hk; by apply list_lookup_insert_ne |].
    intros _. by apply list_lookup_insert_eq.
  - split; [done | intros; lia].
Qed.

(** [hideColumn] touches one column only: the first header carrying the
    name and, in every row after the header row, the cell under it.
    Every other header and cell keeps its display, the header row keeps
    its cells, and no row changes length. *)
Theorem hideColumn_one_column
    (columnName : string) (shouldHide : bool) (t : race_table) (j : nat) :
  first_header_named columnName j (headers t) ->
  let d := if shouldHide then "none" else "" in
  let t' := hideColumn columnName shouldHide t in
  header_display <$> headers t' !! j = Some d
  /\ header_text <$> headers t' = header_text <$> headers t
  /\ (forall k, k <> j -> headers t' !! k = headers t !! k)
  /\ rows t' !! 0%nat = rows t !! 0%nat
  /\ length <$> rows t' = length <$> rows t
  /\ forall i cells,
       rows t !! S i = Some cells ->
       exists cells',
         rows t' !! S i = Some cells'
         /\ (forall k, k <> j -> cells' !! k = cells !! k)
         /\ ((j < length cells)%nat -> cells' !! j = Some d).
Proof. apply hideColumn_effect. Qed.

Lemma hideColumn_one_column_witness :
  first_header_named "DELTA" 1 (headers sample_table)
  /\ hideColumn "DELTA" true sample_table
     = RaceTable
         [Header "POS" ""; Header "DELTA" "none";
          Header "NAME" ""; Header "FUEL" ""]
         [[]; [""; "none"; ""; ""]; [""; "none"]]
  /\ header_display <$> headers (hideColumn "DELTA" true sample_table) !! 1%nat
     = Some "none".
Proof.
  assert (H : first_header_named "DELTA" 1 (headers sample_table)).
  { split; [by eexists |].
    intros k h Hk Hlook. destruct k as [ | k]; [| lia].
    injection Hlook as <-. discriminate. }
  split; [exact H |]. split; [reflexivity |].
  exact (proj1 (hideColumn_one_column "DELTA" true sample_table 1 H)).
Defined.

(** After the two column switches of a dashboard update, the DELTA and
    FUEL headers are never in the same state: live mode hides DELTA and
    shows FUEL, replay mode does the opposite. *)
Theorem delta_and_fuel_columns_alternate
    (isLiveDataMode : bool) (t : race_table) (jd jf : nat) :
  first_header_named "DELTA" jd (headers t) ->
  first_header_named "FUEL" jf (headers t) ->
  let t' := setFuelColumnState isLiveDataMode
              (setDeltaColumnState isLiveDataMode t) in
  header_display <$> headers t' !! jd
    = Some (if isLiveDataMode then "none" else "")
  /\ header_display <$> headers t' !! jf
    = Some (if isLiveDataMode then "" else "none").
Proof.
  intros Hd Hf t'. unfold t', setFuelColumnState, setDeltaColumnState.
  assert (Hne : jf <> jd).
  { destruct Hd as [(hd & Hjd & Hcd) _], Hf as [(hf & Hjf & Hcf) _].
    intros ->. rewrite Hjd in Hjf. injection Hjf as ->.
    rewrite Hcd in Hcf. discriminate Hcf. }
  destruct (hideColumn_effect "DELTA" isLiveDataMode t jd Hd)
    as (Hdisp & Htexts & _).
  set (t1 := hideColumn "DELTA" isLiveDataMode t) in *.
  assert (Hf1 : first_header_named "FUEL" jf (headers t1)).
  { destruct Hf as [(hf & Hjf & Hcf) Hfirst].
    assert (Htext : forall k, header_text <$> headers t1 !! k
                              = header_text <$> headers t !! k).
    { intros k. by rewrite <- !list_lookup_fmap, Htexts. }
    split.
    - specialize (Htext jf). rewrite Hjf in Htext.
      destruct (headers t1 !! jf) as [h1 | ]; [| done].
      exists h1. split; [done |]. simpl in Htext. congruence.
    - intros k h1 Hk Hlook. specialize (Htext k). rewrite Hlook in Htext.
      destruct (headers t !! k) as [h | ] eqn:Hh; [| done].
      simpl in Htext. injection Htext as ->. by apply (Hfirst k h). }
  destruct (hideColumn_effect "FUEL" (negb isLiveDataMode) t1 jf Hf1)
    as (Hdisp2 & _ & Hother & _).
  split.
  - rewrite Hother by done. exact Hdisp.
  - rewrite Hdisp2. by destruct isLiveDataMode.
Qed.

Lemma delta_and_fuel_columns_alternate_witness :
  first_header_named "DELTA" 1 (headers sample_table)
  /\ first_header_named "FUEL" 3 (headers sample_table)
  /\ header_display
       <$> headers (setFuelColumnState false
                      (setDeltaColumnState false sample_table)) !! 3%nat
     = Some "none".
Proof.
  assert (Hd : first_header_named "DELTA" 1 (headers sample_table)).
  { split; [by eexists |].
    intros k h Hk Hlook. destruct k as [ | k]; [| lia].
    injection Hlook as <-. discriminate. }
  assert (Hf : first_header_named "FUEL" 3 (headers sample_table)).
  { split; [by eexists |].
    intros k h Hk Hlook.
    destruct k as [ | [ | [ | k]]]; [| | | lia];
      injection Hlook as <-; discriminate. }
  split; [exact Hd |]. split; [exact Hf |].
  exact (proj2 (delta_and_fuel_columns_alternate false sample_table 1 3 Hd Hf)).
Defined.

End RaceTableChrome.

(** ** Further properties of the pace comparison *)
Section PaceMore.
Import PaceComparison.

Variable truncateName : string -> string.
Variable toUpperCase : string -> string.

Lemma colour_filter_token (v : value) :
  filter (fun c => c ∉ ["text-success"; "text-danger"]) (delta_token v) = [].
Proof. unfold delta_token. by repeat case_match. Qed.

(** The classes after [updateElementDelta]: the old ones without the two
    colours, then the colour of the delta. *)
Lemma updateElementDelta_classList (el : element) (v : value) :
  classList (updateElementDelta el v)
  = filter (fun c => c ∉ ["text-success"; "text-danger"]) (classList el)
    ++ delta_token v.
Proof.
  unfold updateElementDelta, delta_token, classList_add. simpl.
  set (cl := filter _ (classList el)).
  assert (Hd : "text-danger" ∉ cl).
  { unfold cl. rewrite list_elem_of_filter. intros [Hn _]. apply Hn.
    rewrite !elem_of_cons. auto. }
  assert (Hs : "text-success" ∉ cl).
  { unfold cl. rewrite list_elem_of_filter. intros [Hn _]. apply Hn.
    rewrite !elem_of_cons. auto. }
  destruct (gt v (Num 0)).
  - by rewrite bool_decide_eq_false_2.
  - destruct (lt v (Num 0)).
    + by rewrite bool_decide_eq_false_2.
    + simpl. by rewrite app_nil_r.
Qed.

Lemma show_delta_eq (v : value) (el : element) :
  show_delta v el
  = Element (formatDelta v)
      (filter (fun c => c ∉ ["text-success"; "text-danger"]) (classList el)
       ++ delta_token v).
Proof.
  unfold show_delta.
  pose proof (updateElementDelta_classList (set_text (formatDelta v) el) v)
    as Hc.
  pose proof (updateElementDelta_text (set_text (formatDelta v) el) v) as Ht.
  destruct (updateElementDelta _ v) as [txt cl]. simpl in *. by subst.
Qed.

(** Showing the same delta again in an element changes nothing. *)
Lemma show_delta_again (v : value) (el : element) :
  show_delta v (set_text placeholder (show_delta v el)) = show_delta v el.
Proof.
  rewrite !show_delta_eq. cbn [set_text classList]. f_equal.
  rewrite filter_app, colour_filter_token, app_nil_r.
  f_equal. by apply list_filter_filter_l.
Qed.

Lemma formatDelta_sign (v : value) :
  (gt v (Num 0) = true -> exists digits, formatDelta v = "+" +:+ digits)
  /\ (gt v (Num 0) = false ->
      exists rest, formatDelta v = "-" +:+ rest).
Proof.
  unfold formatDelta. split; intros Hgt; rewrite Hgt.
  - destruct v as [ | | | z]; try discriminate Hgt.
    unfold gt, compare_with in Hgt. simpl in Hgt.
    simpl. rewrite (proj2 (Z.eqb_neq z 0)) by lia. simpl. by eexists.
  - destruct (negb (truthy v) && strict_neq v (Num 0)); by eexists.
Qed.

(** The printed sign and the colour of a delta always agree: the text
    starts with "+" exactly when the element is red (text-danger); a
    green element (text-success) always shows a text starting with "-";
    and an element is never red and green at once, whatever classes it
    had before. *)
Theorem show_delta_sign_matches_colour (v : value) (el : element) :
  let el' := show_delta v el in
  ((exists digits, textContent el' = "+" +:+ digits)
     <-> "text-danger" ∈ classList el')
  /\ ("text-success" ∈ classList el' ->
      exists rest, textContent el' = "-" +:+ rest)
  /\ ~ ("text-danger" ∈ classList el' /\ "text-success" ∈ classList el').
Proof.
  intros el'. unfold el'. rewrite show_delta_eq. cbn [textContent classList].
  set (cl := filter _ (classList el)).
  assert (Hd : "text-danger" ∉ cl).
  { unfold cl. rewrite list_elem_of_filter. intros [Hn _]. apply Hn.
    rewrite !elem_of_cons. auto. }
  assert (Hs : "text-success" ∉ cl).
  { unfold cl. rewrite list_elem_of_filter. intros [Hn _]. apply Hn.
    rewrite !elem_of_cons. auto. }
  destruct (formatDelta_sign v) as [Hplus Hminus].
  rewrite !elem_of_app. unfold delta_token.
  destruct (gt v (Num 0)) eqn:Hgt.
  - split; [split; [intros _; right; apply list_elem_of_here
                   | intros _; by apply Hplus] |].
    split.
    + intros [H | H]; [done |]. apply list_elem_of_singleton in H.
      discriminate H.
    + intros [_ [H | H]]; [done |]. apply list_elem_of_singleton in H.
      discriminate H.
  - destruct (Hminus eq_refl) as [rest Hrest]. rewrite Hrest.
    split.
    { split; [intros [digits H]; discriminate H |].
      intros [H | H]; [done |].
      destruct (lt v (Num 0)).
      - apply list_elem_of_singleton in H. discriminate H.
      - by apply not_elem_of_nil in H. }
    split; [intros _; by eexists |].
    intros [[H | H] _]; [done |].
    destruct (lt v (Num 0)).
    + apply list_elem_of_singleton in H. discriminate H.
    + by apply not_elem_of_nil in H.
Qed.

(** The two driver labels after [update]. *)
Lemma update_names (d : data) (w : widget) :
  prevDriver (update truncateName toUpperCase d w)
  = match name (prev d) with
    | Some n => set_text (toUpperCase (truncateName n)) (prevDriver w)
    | None => prevDriver w
    end
  /\ nextDriver (update truncateName toUpperCase d w)
     = match name (next d) with
       | Some n => set_text (toUpperCase (truncateName n)) (nextDriver w)
       | None => nextDriver w
       end.
Proof.
  unfold update, fill_names, getDriverName.
  destruct (name (prev d)) as [np | ], (name (next d)) as [nn | ];
    (rewrite ?bool_decide_eq_true_2 by done);
    (rewrite ?bool_decide_eq_false_2 by (intros H; by apply H));
    destruct (isDataAvailable (player d)), (isDataAvailable (prev d)),
      (isDataAvailable (next d)); split; reflexivity.
Qed.

(** A driver label is rewritten only when the name is not [null]: the
    label then shows the truncated name in upper case, and otherwise it
    keeps whatever name it showed before. The "---" of [getDriverName]
    never reaches the page. *)
Theorem update_driver_labels (d : data) (w : widget) :
  prevDriver (update truncateName toUpperCase d w)
  = match name (prev d) with
    | Some n => set_text (toUpperCase (truncateName n)) (prevDriver w)
    | None => prevDriver w
    end
  /\ nextDriver (update truncateName toUpperCase d w)
     = match name (next d) with
       | Some n => set_text (toUpperCase (truncateName n)) (nextDriver w)
       | None => nextDriver w
       end.
Proof. apply update_names. Qed.

(** The sector elements after [update], at any index. *)
Lemma update_sector_lookup (sd : side) (d : data) (w : widget) (i : nat) :
  let sectors w := match sd with
                   | Prev => prevSectors w
                   | Next => nextSectors w
                   end in
  sectors (update truncateName toUpperCase d w) !! i
  = (fun el =>
       if isDataAvailable (player d) && isDataAvailable (neighbor sd d)
          && bool_decide (i < 3)%nat
       then show_delta (sector_delta i (player d) (neighbor sd d))
                       (set_text placeholder el)
       else set_text placeholder el) <$> sectors w !! i.
Proof.
  intros sectors. unfold update.
  set (w0 := fill_names truncateName toUpperCase d
               (clearNextData (clearPrevData w))).
  assert (H0 : sectors w0 !! i = set_text placeholder <$> sectors w !! i).
  { unfold w0, sectors, fill_names.
    repeat case_bool_decide; destruct sd; simpl;
      by rewrite list_lookup_fmap. }
  clearbody w0.
  destruct (isDataAvailable (player d)); cbn [negb andb];
    [| rewrite H0; by destruct (sectors w !! i)].
  destruct sd; cbn [neighbor] in *; unfold sectors in *;
    destruct (isDataAvailable (prev d)), (isDataAvailable (next d));
    cbn [negb andb foldl sector_step with_prevSector with_nextSector
         with_prevDelta with_nextDelta prevSectors nextSectors
         console_error];
    try (rewrite H0; by destruct (_ !! i));
    destruct i as [ | [ | [ | i]]];
    (rewrite ?bool_decide_eq_true_2 by lia);
    (rewrite ?bool_decide_eq_false_2 by lia);
    repeat (rewrite list_lookup_alter_ne by lia);
    rewrite ?list_lookup_alter_eq;
    repeat (rewrite list_lookup_alter_ne by lia);
    rewrite H0;
    match goal with |- context [?l w !! ?k] => destruct (l w !! k) end;
    reflexivity.
Qed.

(** Running [update] again on the same data changes no element of the
    overlay: what is shown depends on the data, not on how often it
    arrives. Only the error console grows, by one more message when the
    player has times and neither neighbour has. *)
Theorem update_twice_same_elements (d : data) (w : widget) :
  let once := update truncateName toUpperCase d w in
  let twice := update truncateName toUpperCase d once in
  same_elements twice once
  /\ console_errors twice
     = console_errors once
       ++ (if isDataAvailable (player d)
              && negb (isDataAvailable (prev d))
              && negb (isDataAvailable (next d))
           then [both_unavailable_msg] else []).
Proof.
  intros once twice. unfold twice, once.
  assert (Hlap : forall sd,
             slot_element sd Lap (update truncateName toUpperCase d
                                    (update truncateName toUpperCase d w))
             = slot_element sd Lap (update truncateName toUpperCase d w)).
  { intros sd.
    pose proof (update_slot truncateName toUpperCase sd Lap d w _ eq_refl)
      as H1.
    rewrite (update_slot truncateName toUpperCase sd Lap d _ _ H1), H1.
    destruct (isDataAvailable (player d) && isDataAvailable (neighbor sd d));
      [by rewrite show_delta_again | reflexivity]. }
  assert (Hsec : forall sd i,
             (match sd with Prev => prevSectors | Next => nextSectors end)
               (update truncateName toUpperCase d
                  (update truncateName toUpperCase d w)) !! i
             = (match sd with Prev => prevSectors | Next => nextSectors end)
                 (update truncateName toUpperCase d w) !! i).
  { intros sd i.
    pose proof (update_sector_lookup sd d
                  (update truncateName toUpperCase d w) i) as H2.
    pose proof (update_sector_lookup sd d w i) as H1.
    cbn zeta in H1, H2. destruct sd; rewrite H2, H1; clear H1 H2;
      match goal with |- context [?l w !! i] => destruct (l w !! i) end;
      cbn [fmap option_fmap option_map]; try reflexivity; f_equal;
      destruct (_ && _ && bool_decide (i < 3)%nat);
      by rewrite ?show_delta_again. }
  destruct (update_names d (update truncateName toUpperCase d w))
    as [Hp2 Hn2].
  destruct (update_names d w) as [Hp1 Hn1].
  split.
  - repeat split.
    + rewrite Hp2, Hp1. by destruct (name (prev d)).
    + rewrite Hn2, Hn1. by destruct (name (next d)).
    + specialize (Hlap Prev). simpl in Hlap. by injection Hlap.
    + specialize (Hlap Next). simpl in Hlap. by injection Hlap.
    + apply list_eq. intros i. apply (Hsec Prev i).
    + apply list_eq. intros i. apply (Hsec Next i).
  - rewrite (update_console truncateName toUpperCase d
               (update truncateName toUpperCase d w)).
    destruct (_ && _ && _); [reflexivity | by rewrite app_nil_r].
Qed.

End PaceMore.

(** ** Further properties of the lap-time table *)
Section LapTimesMore.
Import LapTimeTableWidget.

Lemma update_loop_lap_numbers (h : lap_time_history) (n : nat) :
  forall i : Z,
    -1 <= i < Z.of_nat (length (lap_time_history_data h)) ->
    lapNumCell <$> update_loop h i n
    = (fun k : nat => i + 1 - Z.of_nat k)
        <$> seq 0 (Nat.min n (Z.to_nat (i + 1))).
Proof.
  induction n as [ | n IH]; intros i Hi; [reflexivity |].
  cbn [update_loop].
  destruct (Z.geb_spec i 0) as [Hge | Hlt].
  - destruct (lookup_lt_is_Some_2 (lap_time_history_data h) (Z.to_nat i))
      as [ld Hld]; [lia |].
    rewrite Hld. rewrite fmap_cons, IH by lia.
    replace (Z.to_nat (i + 1)) with (S (Z.to_nat (i - 1 + 1))) by lia.
    cbn [Nat.min seq]. rewrite fmap_cons. f_equal; [simpl; lia |].
    rewrite <- fmap_S_seq, <- list_fmap_compose.
    apply list_fmap_ext. intros k x _. simpl. lia.
  - replace (Z.to_nat (i + 1)) with 0%nat by lia.
    by rewrite Nat.min_0_r.
Qed.

(** The table lists the most recent laps first: the lap numbers run
    down from the number of laps in the history, one row per lap, and
    stop after five rows or at lap 1, whichever comes first. A [null]
    history gives an empty table. *)
Theorem update_newest_five_laps :
  update None = []
  /\ forall h : lap_time_history,
       lapNumCell <$> update (Some h)
       = (fun k : nat =>
            Z.of_nat (length (lap_time_history_data h)) - Z.of_nat k)
           <$> seq 0 (Nat.min 5 (length (lap_time_history_data h))).
Proof.
  split; [reflexivity |]. intros h. unfold update, numRows.
  rewrite update_loop_lap_numbers by lia.
  replace (Z.to_nat (Z.of_nat (length (lap_time_history_data h)) - 1 + 1))
    with (length (lap_time_history_data h)) by lia.
  apply list_fmap_ext. intros k x _. lia.
Qed.

Lemma applyColourToCell_class_lists (txt : string) (lapNum : Z)
    (time globalBest pb : value) (isValid : Z) (typeStr : string) :
  classList (applyColourToCell (set_text txt fresh) lapNum time globalBest
                               pb isValid typeStr)
  ∈ colour_class_lists.
Proof.
  unfold applyColourToCell, colour_class_lists.
  repeat case_match; cbn; rewrite !elem_of_cons; auto.
Qed.

(** Every time cell of every row carries at most one colour class, and
    only text-purple, text-success or text-danger: two colours never
    pile up on a cell. *)
Theorem lap_cells_single_colour (h : lap_time_history) (r : row) :
  r ∈ update (Some h) ->
  Forall (fun cell => classList cell ∈ colour_class_lists)
         [lapTimeCell r; s1TimeCell r; s2TimeCell r; s3TimeCell r].
Proof.
  intros Hr. destruct (update_rows h r Hr) as (ld & _ & ->).
  unfold render_row. cbn [lapTimeCell s1TimeCell s2TimeCell s3TimeCell].
  repeat (apply Forall_cons_2; [apply applyColourToCell_class_lists |]).
  apply Forall_nil_2.
Qed.

Lemma lap_cells_single_colour_witness :
  let r := render_row three_laps 1
             (lap 91000 29400 30600 31000 "1:31.000" 14) in
  r ∈ update (Some three_laps)
  /\ Forall (fun cell => classList cell ∈ colour_class_lists)
            [lapTimeCell r; s1TimeCell r; s2TimeCell r; s3TimeCell r]
  /\ classList <$> [lapTimeCell r; s1TimeCell r; s2TimeCell r; s3TimeCell r]
     = [["text-danger"]; ["text-success"]; []; []].
Proof.
  intros r.
  assert (Hr : r ∈ update (Some three_laps))
    by apply list_elem_of_further, list_elem_of_here.
  split; [exact Hr |].
  split; [exact (lap_cells_single_colour three_laps r Hr) | reflexivity].
Defined.

Lemma zero_never_fastest (globalBest : value) :
  is_fastest_overall (Num 0) globalBest = false.
Proof.
  destruct globalBest as [ | | | b]; simpl; try reflexivity.
  by destruct b.
Qed.

(** A time of 0 ms is never coloured as the fastest overall, not even
    while the global best itself still reads 0: the cell shows "---"
    and is left to the personal-best and validity rules. *)
Theorem zero_time_never_fastest_overall (h : lap_time_history) (r : row) :
  r ∈ update (Some h) ->
  exists lapData : lap_data,
    lap_time_history_data h !! Z.to_nat (lapNumCell r - 1) = Some lapData
    /\ (lap_time_in_ms lapData = Num 0 ->
        colour_of (lapTimeCell r) <> FastestOverall)
    /\ (sector_1_time_in_ms lapData = Num 0 ->
        colour_of (s1TimeCell r) <> FastestOverall)
    /\ (sector_2_time_in_ms lapData = Num 0 ->
        colour_of (s2TimeCell r) <> FastestOverall)
    /\ (sector_3_time_in_ms lapData = Num 0 ->
        colour_of (s3TimeCell r) <> FastestOverall).
Proof.
  intros Hr. destruct (update_rows h r Hr) as (ld & Hld & Hrow).
  exists ld. split; [exact Hld |].
  rewrite Hrow. unfold render_row.
  cbn [lapTimeCell s1TimeCell s2TimeCell s3TimeCell].
  rewrite !applyColourToCell_colour.
  repeat split; intros ->; rewrite zero_never_fastest;
    unfold first_matching_rule; by repeat case_match.
Qed.

Lemma zero_time_never_fastest_overall_witness :
  let r := render_row first_lap_running 0 (lap 0 0 0 0 "0:00.000" 15) in
  r ∈ update (Some first_lap_running)
  /\ global_fastest_lap_ms first_lap_running = Num 0
  /\ colour_of (lapTimeCell r) <> FastestOverall.
Proof.
  intros r.
  assert (Hr : r ∈ update (Some first_lap_running))
    by apply list_elem_of_here.
  destruct (zero_time_never_fastest_overall first_lap_running r Hr)
    as (ld & Hld & Hlap & _).
  injection Hld as <-.
  split; [exact Hr |]. split; [reflexivity |]. exact (Hlap eq_refl).
Defined.

End LapTimesMore.

(** ** The driver modal *)
Section DriverModal.
Import DriverModalDataPopulator.

(** Row [i] of the collisions table has ID [i + 1]. When the driver of
    the modal is the first driver of the record, the row names the second
    driver and gives the first driver's lap; when he is the second driver
    (and not the first), it names the first driver and gives the second
    driver's lap. So the row always names the other car, with the lap the
    modal's driver was on. *)
Theorem collision_row_names_other_driver
    (playerIndex : Z) (records : list collision_record)
    (i : nat) (record : collision_record) :
  records !! i = Some record ->
  (playerIndex = driver_1_index record ->
   populateCollisionsInfoTab playerIndex records !! i
   = Some (Z.of_nat i + 1, driver_2_name record, driver_1_lap record))
  /\ (playerIndex = driver_2_index record ->
      driver_1_index record <> driver_2_index record ->
      populateCollisionsInfoTab playerIndex records !! i
      = Some (Z.of_nat i + 1, driver_1_name record, driver_2_lap record))
  /\ length (populateCollisionsInfoTab playerIndex records) = length records.
Proof.
  intros Hrec. unfold populateCollisionsInfoTab.
  rewrite list_lookup_imap, Hrec, length_imap.
  unfold getCollisionOtherDriverName, getCollisionLapNumber. simpl.
  repeat split.
  - intros ->. by rewrite Z.eqb_refl.
  - intros -> Hne. by rewrite (proj2 (Z.eqb_neq _ _)).
Qed.

Lemma collision_row_names_other_driver_witness :
  sample_collisions !! 1%nat
    = Some (CollisionRecord 9 "ALBON" 11 7 "NORRIS" 12)
  /\ populateCollisionsInfoTab 7 sample_collisions !! 1%nat
     = Some (2, "ALBON", 12).
Proof.
  split; [reflexivity |].
  destruct (collision_row_names_other_driver 7 sample_collisions 1
              (CollisionRecord 9 "ALBON" 11 7 "NORRIS" 12) eq_refl)
    as (_ & Hsecond & _).
  apply Hsecond; [reflexivity | discriminate].
Defined.

(** A loop that appends one output per input: an index of the extended
    input is either an old one, whose output is untouched, or the new
    one. *)
Lemma snoc_lookup_cases {A B} (data : list A) (x : A)
    (out : list B) (r : B) (i : nat) (a : A) :
  length out = length data ->
  (data ++ [x]) !! i = Some a ->
  (data !! i = Some a /\ (out ++ [r]) !! i = out !! i)
  \/ (a = x /\ (out ++ [r]) !! i = Some r).
Proof.
  intros Hlen Hlook.
  destruct (decide (i < length data)%nat) as [Hi | Hi].
  - left. rewrite lookup_app_l in Hlook by lia.
    rewrite lookup_app_l by lia. by split.
  - right. assert (i = length data) as ->.
    { apply lookup_lt_Some in Hlook. rewrite length_app in Hlook.
      simpl in Hlook. lia. }
    rewrite list_lookup_middle in Hlook by done. injection Hlook as <-.
    split; [done |]. by apply list_lookup_middle.
Qed.

Section Fuel.
Variable float : Type.
Variable fsub : float -> float -> float.
Variable toFixed2 : float -> string.

Lemma fuel_loop_snoc (st : fuel_state float)
    (data : list (per_lap_info float)) (x : per_lap_info float) :
  fuel_loop float fsub toFixed2 st (data ++ [x])
  = match fuel_loop float fsub toFixed2 st data with
    | Some st' => fuel_step float fsub toFixed2 st' x
    | None => None
    end.
Proof.
  revert st. induction data as [ | y data IH]; intros st; simpl.
  - by destruct (fuel_step float fsub toFixed2 st x).
  - destruct (fuel_step float fsub toFixed2 st y); [apply IH | reflexivity].
Qed.

(** One entry without car-status data and the loop throws. *)
Lemma fuel_loop_throws (data : list (per_lap_info float))
    (lapData : per_lap_info float) :
  lapData ∈ data -> car_status_data float lapData = None ->
  forall st, fuel_loop float fsub toFixed2 st data = None.
Proof.
  intros Hin Hnone.
  induction Hin as [lapData data | lapData y data _ IH]; intros st; simpl.
  - unfold fuel_step. by rewrite Hnone.
  - destruct (fuel_step float fsub toFixed2 st y); [by apply IH | reflexivity].
Qed.

(** What the loop of the fuel tab has built after a prefix of the laps,
    all of them with car-status data. *)
Lemma fuel_loop_invariant (data : list (per_lap_info float)) :
  Forall (fun lapData => car_status_data float lapData <> None) data ->
  exists st,
    fuel_loop float fsub toFixed2 (fuel_init float) data = Some st
    /\ length (tbody float st) = length data
    /\ previousFuelLoad float st
       = last data ≫= (fun lapData =>
                         fuel_in_tank float <$> car_status_data float lapData)
    /\ previousExcessLaps float st
       = last data ≫= (fun lapData =>
                         fuel_remaining_laps float
                           <$> car_status_data float lapData)
    /\ length (fuelUsagePerLap float st) = pred (length data)
    /\ (forall first status,
          data !! 0%nat = Some first ->
          car_status_data float first = Some status ->
          tbody float st !! 0%nat
          = Some (FuelRow (lap_number float first)
                          (toFixed2 (fuel_in_tank float status)) "-"
                          (toFixed2 (fuel_remaining_laps float status)) "-"))
    /\ (forall k before current sb sc,
          data !! k = Some before -> data !! S k = Some current ->
          car_status_data float before = Some sb ->
          car_status_data float current = Some sc ->
          tbody float st !! S k
          = Some (FuelRow (lap_number float current)
                    (toFixed2 (fuel_in_tank float sc))
                    (toFixed2 (fsub (fuel_in_tank float sb)
                                    (fuel_in_tank float sc)))
                    (toFixed2 (fuel_remaining_laps float sc))
                    (toFixed2 (fsub (fuel_remaining_laps float sc)
                                    (fuel_remaining_laps float sb))))
          /\ fuelUsagePerLap float st !! k
             = Some (lap_number float current,
                     fsub (fuel_in_tank float sb) (fuel_in_tank float sc))).
Proof.
  induction data as [ | x data IH] using rev_ind; intros Hall.
  - exists (fuel_init float). cbn. repeat split; intros; done.
  - apply Forall_app in Hall as [Hall Hx].
    apply (proj1 (Forall_cons _ _ _)) in Hx as [Hx _]. simpl in Hx.
    destruct (car_status_data float x) as [sx | ] eqn:Hsx;
      [clear Hx | exfalso; by apply Hx].
    destruct (IH Hall) as (st & Hloop & Hlen & Hfuel & Hexcess & Hgraph
                           & Hfirst & Hrest).
    exists (fuel_record_lap float fsub toFixed2 st (lap_number float x) sx).
    split.
    { rewrite fuel_loop_snoc, Hloop. unfold fuel_step. by rewrite Hsx. }
    rewrite last_snoc. cbn [mbind option_bind]. rewrite Hsx.
    unfold fuel_record_lap. cbn [tbody previousFuelLoad previousExcessLaps
      fuelUsagePerLap fmap option_fmap option_map].
    rewrite !length_app, Hlen. cbn [length].
    split; [lia |]. split; [reflexivity |]. split; [reflexivity |].
    rewrite Hfuel, Hexcess, last_lookup.
    destruct (data !! pred (length data)) as [z | ] eqn:Hz;
      cbn [mbind option_bind].
    + pose proof (lookup_lt_Some _ _ _ Hz) as Hpos.
      destruct (car_status_data float z) as [sz | ] eqn:Hsz;
        [| exfalso; by apply (Forall_lookup_1 _ _ _ _ Hall Hz)].
      cbn [fmap option_fmap option_map].
      split; [rewrite length_app, Hgraph; simpl; lia |].
      split.
      { intros first status Hlook Hstatus.
        rewrite lookup_app_l in Hlook by lia.
        rewrite lookup_app_l by lia. by apply Hfirst. }
      intros k before current sb sc Hb Hc Hsb Hsc.
      destruct (decide (S k < length data)%nat) as [Hlt | Hge].
      * rewrite lookup_app_l in Hb, Hc by lia.
        destruct (Hrest k before current sb sc Hb Hc Hsb Hsc)
          as [Hrow Hpoint].
        rewrite !lookup_app_l by lia. by split.
      * assert (Hk : S k = length data).
        { apply lookup_lt_Some in Hc. rewrite length_app in Hc.
          simpl in Hc. lia. }
        rewrite lookup_app_l in Hb by lia.
        rewrite Hk, list_lookup_middle in Hc by reflexivity.
        injection Hc as <-.
        replace (pred (length data)) with k in Hz by lia.
        rewrite Hz in Hb. injection Hb as <-.
        rewrite Hsz in Hsb. injection Hsb as <-.
        rewrite Hsx in Hsc. injection Hsc as <-.
        rewrite Hk. rewrite list_lookup_middle by done.
        split; [reflexivity |].
        apply list_lookup_middle. rewrite Hgraph. lia.
    + assert (Hnil : data = []).
      { apply lookup_ge_None in Hz. destruct data; [done | simpl in Hz; lia]. }
      subst data. simpl in Hloop. injection Hloop as <-.
      cbn [fuel_init tbody fuelUsagePerLap length app pred Nat.add].
      split; [reflexivity |].
      split.
      { intros first status Hlook Hstatus. injection Hlook as <-.
        rewrite Hsx in Hstatus. by injection Hstatus as <-. }
      intros k before current sb sc _ Hc. destruct k; discriminate Hc.
Qed.

(** The fuel tab reads car-status data from every entry without a test.
    If one entry lacks it, the tab throws and builds nothing. If every
    entry has it, the table has one row per entry: the first row shows
    "-" for the usage and for the excess-laps delta, and every later row
    shows the fuel load of the entry before minus its own, and its excess
    laps minus those of the entry before. The graph then gets one point
    per entry after the first, at that entry's lap number, with the same
    usage: for n entries, n - 1 points. *)
Theorem fuel_tab_rows_and_graph (data : list (per_lap_info float)) :
  ((exists lapData,
       lapData ∈ data /\ car_status_data float lapData = None) ->
   populateFuelUsageTab float fsub toFixed2 data = None)
  /\ (Forall (fun lapData => car_status_data float lapData <> None) data ->
      exists rows graph,
        populateFuelUsageTab float fsub toFixed2 data = Some (rows, graph)
        /\ length rows = length data
        /\ length graph = pred (length data)
        /\ (forall first, data !! 0%nat = Some first ->
              usagePerLapCell <$> rows !! 0%nat = Some "-"
              /\ excessLapsDeltaCell <$> rows !! 0%nat = Some "-")
        /\ (forall k before current sb sc,
              data !! k = Some before -> data !! S k = Some current ->
              car_status_data float before = Some sb ->
              car_status_data float current = Some sc ->
              usagePerLapCell <$> rows !! S k
              = Some (toFixed2 (fsub (fuel_in_tank float sb)
                                     (fuel_in_tank float sc)))
              /\ excessLapsDeltaCell <$> rows !! S k
                 = Some (toFixed2 (fsub (fuel_remaining_laps float sc)
                                        (fuel_remaining_laps float sb)))
              /\ graph !! k
                 = Some (lap_number float current,
                         fsub (fuel_in_tank float sb)
                              (fuel_in_tank float sc)))).
Proof.
  unfold populateFuelUsageTab. split.
  - intros (lapData & Hin & Hnone).
    by rewrite (fuel_loop_throws data lapData Hin Hnone).
  - intros Hall.
    destruct (fuel_loop_invariant data Hall)
      as (st & Hloop & Hlen & _ & _ & Hgraph & Hfirst & Hrest).
    rewrite Hloop. exists (tbody float st), (fuelUsagePerLap float st).
    split; [reflexivity |]. split; [exact Hlen |]. split; [exact Hgraph |].
    split.
    + intros first Hlook.
      destruct (car_status_data float first) as [status | ] eqn:Hstatus;
        [| exfalso; by apply (Forall_lookup_1 _ _ _ _ Hall Hlook)].
      by rewrite (Hfirst first status Hlook Hstatus).
    + intros k before current sb sc Hb Hc Hsb Hsc.
      destruct (Hrest k before current sb sc Hb Hc Hsb Hsc) as [Hrow Hpoint].
      by rewrite Hrow.
Qed.

End Fuel.

Lemma fuel_tab_rows_and_graph_witness :
  Forall (fun lapData => car_status_data Z lapData <> None) sample_fuel
  /\ populateFuelUsageTab Z Z.sub hundredths_toFixed2 sample_fuel
     = Some ([FuelRow 0 "50.00" "-" "1.20" "-";
              FuelRow 1 "48.20" "1.80" "1.15" "-0.05";
              FuelRow 2 "46.50" "1.70" "1.18" "0.03"],
             [(1, 180); (2, 170)])
  /\ populateFuelUsageTab Z Z.sub hundredths_toFixed2 sample_fuel_gap = None.
Proof.
  assert (Hall : Forall (fun lapData => car_status_data Z lapData <> None)
                        sample_fuel)
    by (repeat (apply Forall_cons_2; [discriminate |]); apply Forall_nil_2).
  destruct (fuel_tab_rows_and_graph Z Z.sub hundredths_toFixed2 sample_fuel)
    as [_ Hbuilt].
  destruct (fuel_tab_rows_and_graph Z Z.sub hundredths_toFixed2
              sample_fuel_gap) as [Hthrows _].
  split; [exact Hall |].
  split.
  - destruct (Hbuilt Hall) as (rows & graph & Heq & _).
    rewrite Heq. symmetry. exact Heq.
  - apply Hthrows. exists (PerLapInfo Z 1 None).
    split; [apply list_elem_of_further, list_elem_of_here | reflexivity].
Defined.

Section Ers.
Variable float : Type.
Variable fadd : float -> float -> float.
Variable fdiv : float -> float -> float.
Variable fmul : float -> float -> float.
Variable hundred : float.
Variable formatFloatWithTwoDecimals : float -> string.

(** Case analysis on an index of the input extended by one entry. *)
Ltac ers_snoc Hlen Hlook :=
  match goal with
  | |- context [(?out ++ [?r]) !! ?i] =>
      destruct (snoc_lookup_cases _ _ out r i _ Hlen Hlook)
        as [[? ->] | [-> ->]]
  end.

(** What the loop of the ERS tab has built after a prefix of the laps. *)
Lemma ers_loop_invariant (len : nat) (data : list (ers_lap_info float)) :
  let st := foldl (ers_step float fadd fdiv fmul hundred
                            formatFloatWithTwoDecimals len)
                  (ErsState float [] [] [] []) data in
  length (ers_tbody float st) = length data
  /\ (forall i lapInfo,
        data !! i = Some lapInfo -> ers_lap_number float lapInfo = 0 ->
        ers_tbody float st !! i
        = Some (if bool_decide (len = 1%nat) then ErsMessage else ErsBlank))
  /\ (forall i lapInfo,
        data !! i = Some lapInfo -> ers_lap_number float lapInfo <> 0 ->
        exists remaining deployed mguh mguk harvested,
          ers_tbody float st !! i
          = Some (ErsCells (ers_lap_number float lapInfo)
                           remaining deployed mguh mguk harvested))
  /\ fst <$> graphDataDeployed float st
     = ers_lap_number float <$> filter ers_plotted data
  /\ fst <$> graphDataRemaining float st
     = ers_lap_number float <$> filter ers_plotted data
  /\ fst <$> graphDataHarvested float st
     = ers_lap_number float <$> filter ers_plotted data.
Proof.
  induction data as [ | x data IH] using rev_ind.
  - cbn. repeat split; intros; done.
  - cbn zeta in *. rewrite foldl_snoc.
    destruct IH as (Hlen & Hzero & Hcells & Hd & Hr & Hh).
    set (st := foldl _ _ data) in *.
    rewrite filter_app, !fmap_app, length_app. cbn [length].
    unfold ers_step.
    destruct (Z.eqb_spec (ers_lap_number float x) 0) as [Hx | Hx];
      [| destruct (ers_car_status_data float x) as [status | ] eqn:Hstatus];
      cbn [ers_tbody graphDataDeployed graphDataRemaining graphDataHarvested].
    + rewrite (filter_cons_False _ x) by (intros [Hn _]; by apply Hn).
      rewrite filter_nil, fmap_nil, !app_nil_r, length_app, Hlen.
      split; [simpl; lia |].
      split; [| split; [| done]]; intros i lapInfo Hlook Hl;
        ers_snoc Hlen Hlook;
        [by apply (Hzero i lapInfo) | done
        | by apply (Hcells i lapInfo) | done].
    + rewrite (filter_cons_True _ x)
        by (split; [done | by rewrite Hstatus]).
      rewrite filter_nil, !fmap_app, length_app, Hlen, Hd, Hr, Hh.
      split; [simpl; lia |].
      split; [| split; [| done]]; intros i lapInfo Hlook Hl;
        ers_snoc Hlen Hlook;
        [by apply (Hzero i lapInfo) | done
        | by apply (Hcells i lapInfo) | by repeat eexists].
    + rewrite (filter_cons_False _ x) by (intros [_ Hn]; by apply Hn).
      rewrite filter_nil, fmap_nil, !app_nil_r, length_app, Hlen.
      split; [simpl; lia |].
      split; [| split; [| done]]; intros i lapInfo Hlook Hl;
        ers_snoc Hlen Hlook;
        [by apply (Hzero i lapInfo) | done
        | by apply (Hcells i lapInfo) | by repeat eexists].
Qed.

(** The ERS table has one message row when there are no laps, and
    otherwise exactly one row per entry: an entry for lap 0 leaves its
    row without cells (or with the message, when it is the only entry),
    every other entry gets the cells of its lap. The three graph series
    hold one point for each entry that is not lap 0 and carries
    car-status data, at that lap's number and in the order of the
    entries. *)
Theorem ers_tab_rows_and_graph (perLapInfo : list (ers_lap_info float)) :
  let st := populateERSHistoryTab float fadd fdiv fmul hundred
              formatFloatWithTwoDecimals perLapInfo in
  (perLapInfo = [] -> ers_tbody float st = [ErsMessage])
  /\ (perLapInfo <> [] ->
      length (ers_tbody float st) = length perLapInfo)
  /\ (forall i lapInfo,
        perLapInfo !! i = Some lapInfo ->
        ers_lap_number float lapInfo = 0 ->
        ers_tbody float st !! i
        = Some (if bool_decide (length perLapInfo = 1%nat)
                then ErsMessage else ErsBlank))
  /\ (forall i lapInfo,
        perLapInfo !! i = Some lapInfo ->
        ers_lap_number float lapInfo <> 0 ->
        exists remaining deployed mguh mguk harvested,
          ers_tbody float st !! i
          = Some (ErsCells (ers_lap_number float lapInfo)
                           remaining deployed mguh mguk harvested))
  /\ fst <$> graphDataDeployed float st
     = ers_lap_number float <$> filter ers_plotted perLapInfo
  /\ fst <$> graphDataRemaining float st
     = ers_lap_number float <$> filter ers_plotted perLapInfo
  /\ fst <$> graphDataHarvested float st
     = ers_lap_number float <$> filter ers_plotted perLapInfo.
Proof.
  intros st. unfold st, populateERSHistoryTab.
  destruct perLapInfo as [ | x data].
  - cbn. repeat split; intros; done.
  - rewrite bool_decide_eq_true_2 by (simpl; lia).
    destruct (ers_loop_invariant (length (x :: data)) (x :: data))
      as (Hlen & Hzero & Hcells & Hd & Hr & Hh).
    cbn zeta in *. by repeat split.
Qed.

End Ers.

Lemma ers_tab_rows_and_graph_witness :
  let st := populateERSHistoryTab Z Z.add Z.div Z.mul 100 pretty sample_ers in
  sample_ers <> []
  /\ ers_tbody Z st
     = [ErsBlank;
        ErsCells 1 "0%" "0%" "0%" "0%" "0%";
        ErsCells 2 "---" "---" "---" "---" "---"]
  /\ length (ers_tbody Z st) = length sample_ers
  /\ fst <$> graphDataDeployed Z st = [1].
Proof.
  intros st.
  destruct (ers_tab_rows_and_graph Z Z.add Z.div Z.mul 100 pretty sample_ers)
    as (_ & Hlen & _ & _ & Hd & _).
  assert (Hne : sample_ers <> []) by discriminate.
  split; [exact Hne |]. split; [reflexivity |].
  split; [exact (Hlen Hne) | exact Hd].
Defined.

End DriverModal.

(** ** Instances *)
Section Instances.
Import TelemetryRenderer TelemetryRendererDom PaceComparison.

Lemma getAdjacentPositions_window_wide_witness :
  1 <= 20 <= 20 /\ 0 <= 3 /\ (3 >= 20 \/ 2 * 3 + 1 <= 20)
  /\ exists lo hi,
       getAdjacentPositions (Num 20) 20 3 = seqZ lo (hi - lo + 1)
       /\ 1 <= lo /\ lo <= hi /\ hi <= 20
       /\ hi - lo + 1 = Z.min (2 * 3 + 1) 20.
Proof.
  split; [lia |]. split; [lia |]. split; [right; lia |].
  apply (getAdjacentPositions_window_wide 20 20 3); lia.
Defined.

Lemma corrections_exclusive_wide_witness :
  1 <= 1 <= 20 /\ 0 <= 3 /\ (3 >= 20 \/ 2 * 3 + 1 <= 20)
  /\ corrections_applied 1 20 3 <> (true, true).
Proof.
  split; [lia |]. split; [lia |]. split; [right; lia |].
  apply (corrections_exclusive_wide 1 20 3); lia.
Defined.

Lemma shouldShowLapNumber_hidden_iff_witness :
  shouldShowLapNumber "Short Qualifying" = false
  /\ shouldShowLapNumber "Race" = true.
Proof.
  split.
  - apply shouldShowLapNumber_hidden_iff.
    exists "Qualifying", "Short ", "".
    split; [apply list_elem_of_here | reflexivity].
  - reflexivity.
Defined.

Lemma show_delta_sign_matches_colour_witness :
  textContent (show_delta (Num 350) (Element "---" ["text-success"]))
    = "+0.350"
  /\ "text-danger"
       ∈ classList (show_delta (Num 350) (Element "---" ["text-success"])).
Proof.
  split; [reflexivity |].
  apply (show_delta_sign_matches_colour
           (Num 350) (Element "---" ["text-success"])).
  by exists "0.350".
Defined.

End Instances.
